(** * The SSE client service of src/services/sseService.js

    A shallow embedding of the [SSEService] class: the fields of [this],
    the browser objects the class drives ([EventSource] handles, timers of
    [setTimeout], the promise of [testConnection], the suspended [await] of
    the token refresh hook) and the console, followed by the properties of
    the connection life cycle, the reconnection policy and the listener
    registry. *)

From stdpp Require Import gmap strings list fin_maps.
From Stdlib Require Import ZArith Ascii.

Local Open Scope Z_scope.

(** ** JavaScript values that reach the service *)

(** The argument of [connect] and the result of the refresh hook: a string,
    or one of the two absent values. *)
Inductive token :=
| undefined
| null
| Str (s : string).

Global Instance token_eq_dec : EqDecision token.
Proof. solve_decision. Defined.

(** [!token] is false exactly for a non-empty string. *)
Definition truthy (t : token) : bool :=
  match t with
  | Str s => negb (String.eqb s "")
  | _ => false
  end.

(** String conversion, as applied by [encodeURIComponent] to its argument. *)
Definition ToString (t : token) : string :=
  match t with
  | undefined => "undefined"
  | null => "null"
  | Str s => s
  end.

(** Parsed payloads and the object literals handed to listeners. *)
#[local] Set Warnings "-register-all".
Inductive JSON :=
| JNull
| JBool (b : bool)
| JNum (n : Z)
| JStr (s : string)
| JArr (l : list JSON)
| JObj (fields : list (string * JSON)).
#[local] Set Warnings "register-all".

(** Functions are compared by identity ([indexOf] uses [===]); a listener,
    like the refresh hook, is its identity. *)
Definition callback := nat.
Definition hook := nat.

Inductive exn :=
| SyntaxError
| TypeError
| ListenerError (cb : callback).

(** ** The collaborators the file imports or finds in the browser *)

Record Env := {
  API_BASE_URL : string;
  encodeURIComponent : string -> string;
  (** [JSON.parse]: [None] when it throws a [SyntaxError]. *)
  JSON_parse : string -> option JSON;
  (** whether a listener throws when called with a given argument *)
  throws : callback -> JSON -> bool
}.

(** ** String helpers: [includes] and the masking [replace] *)

Fixpoint includes (hay needle : string) : bool :=
  String.prefix needle hay ||
  match hay with
  | EmptyString => false
  | String _ rest => includes rest needle
  end.

Fixpoint after_prefix (p s : string) : option string :=
  match p, s with
  | EmptyString, _ => Some s
  | String a p', String b s' => if Ascii.eqb a b then after_prefix p' s' else None
  | String _ _, EmptyString => None
  end.

(** the longest run [[^&]*] is dropped from the front *)
Fixpoint drop_value (s : string) : string :=
  match s with
  | EmptyString => EmptyString
  | String c r => if Ascii.eqb c "&"%char then s else drop_value r
  end.

Definition starts_value (s : string) : bool :=
  match s with
  | EmptyString => false
  | String c _ => negb (Ascii.eqb c "&"%char)
  end.

(** [url.replace(/token=[^&]+/, 'token=***')]: the leftmost match only. *)
Fixpoint mask_token (url : string) : string :=
  match after_prefix "token=" url with
  | Some rest =>
      if starts_value rest then "token=***" +:+ drop_value rest
      else match url with
           | EmptyString => EmptyString
           | String c r => String c (mask_token r)
           end
  | None =>
      match url with
      | EmptyString => EmptyString
      | String c r => String c (mask_token r)
      end
  end.

(** ** Browser objects *)

Definition CONNECTING : Z := 0.
Definition OPEN : Z := 1.
Definition CLOSED : Z := 2.

(** What the handlers installed on a handle close over: the handlers of
    [connect] capture its [token]; those of [testConnection] capture the
    promise to resolve and the timeout to clear. *)
Inductive Wiring :=
| SessionHandlers (tok : token)
| ProbeHandlers (promise : nat) (timeout : nat).

Record EventSource := {
  url : string;
  withCredentials : bool;
  readyState : Z;
  wiring : Wiring;
  (** event types given to [addEventListener], oldest first *)
  eventTypes : list string
}.

Inductive timer_action :=
| retry (tok : token)
| probe_timeout (es : nat) (promise : nat).

Record Timer := {
  delay : Z;
  action : timer_action;
  (** false once fired or cleared *)
  armed : bool
}.

(** The verdict object of [testConnection]. *)
Record Verdict := {
  success : bool;
  message : option string;
  error : option string;
  v_readyState : option Z;
  details : bool
}.

Inductive Promise :=
| Pending
| Resolved (v : Verdict)
| Rejected (e : exn).

(** An [onerror] handler suspended at [await this.tokenRefreshCallback()];
    it keeps the [token] of the [connect] call that installed it. *)
Record Await := {
  k_token : token;
  k_waiting : bool
}.

Inductive effect :=
| console_error (args : list string)
| console_log (args : list string)
| invoke (cb : callback) (arg : JSON)
| invoke_hook (h : hook)
| new_EventSource (id : nat) (u : string)
| close_EventSource (id : nat)
| uncaught (e : exn).

Global Instance effect_inhabited : Inhabited effect := populate (uncaught TypeError).

(** ** The service object and the world around it *)

Record SSEService := {
  eventSource : option nat;
  reconnectAttempts : Z;
  maxReconnectAttempts : Z;
  reconnectDelay : Z;
  listeners : gmap string (list callback);
  isConnected : bool;
  shouldReconnect : bool;
  connectionListeners : list callback;
  lastToken : token;
  tokenRefreshCallback : option hook
}.

Record World := {
  this : SSEService;
  sources : list EventSource;
  timers : list Timer;
  awaits : list Await;
  promises : list Promise;
  trace : list effect
}.

(** [constructor()] *)
Definition constructor : SSEService := {|
  eventSource := None;
  reconnectAttempts := 0;
  maxReconnectAttempts := 5;
  reconnectDelay := 1000;
  listeners := ∅;
  isConnected := false;
  shouldReconnect := true;
  connectionListeners := [];
  lastToken := null;
  tokenRefreshCallback := None
|}.

(** [const sseService = new SSEService()] in a fresh page. *)
Definition initial : World := {|
  this := constructor;
  sources := [];
  timers := [];
  awaits := [];
  promises := [];
  trace := []
|}.

(** ** Field updates *)

Definition with_eventSource (v : option nat) (s : SSEService) : SSEService :=
  {| eventSource := v; reconnectAttempts := reconnectAttempts s;
     maxReconnectAttempts := maxReconnectAttempts s; reconnectDelay := reconnectDelay s;
     listeners := listeners s; isConnected := isConnected s;
     shouldReconnect := shouldReconnect s; connectionListeners := connectionListeners s;
     lastToken := lastToken s; tokenRefreshCallback := tokenRefreshCallback s |}.

Definition with_reconnectAttempts (v : Z) (s : SSEService) : SSEService :=
  {| eventSource := eventSource s; reconnectAttempts := v;
     maxReconnectAttempts := maxReconnectAttempts s; reconnectDelay := reconnectDelay s;
     listeners := listeners s; isConnected := isConnected s;
     shouldReconnect := shouldReconnect s; connectionListeners := connectionListeners s;
     lastToken := lastToken s; tokenRefreshCallback := tokenRefreshCallback s |}.

Definition with_listeners (v : gmap string (list callback)) (s : SSEService) : SSEService :=
  {| eventSource := eventSource s; reconnectAttempts := reconnectAttempts s;
     maxReconnectAttempts := maxReconnectAttempts s; reconnectDelay := reconnectDelay s;
     listeners := v; isConnected := isConnected s;
     shouldReconnect := shouldReconnect s; connectionListeners := connectionListeners s;
     lastToken := lastToken s; tokenRefreshCallback := tokenRefreshCallback s |}.

Definition with_isConnected (v : bool) (s : SSEService) : SSEService :=
  {| eventSource := eventSource s; reconnectAttempts := reconnectAttempts s;
     maxReconnectAttempts := maxReconnectAttempts s; reconnectDelay := reconnectDelay s;
     listeners := listeners s; isConnected := v;
     shouldReconnect := shouldReconnect s; connectionListeners := connectionListeners s;
     lastToken := lastToken s; tokenRefreshCallback := tokenRefreshCallback s |}.

Definition with_shouldReconnect (v : bool) (s : SSEService) : SSEService :=
  {| eventSource := eventSource s; reconnectAttempts := reconnectAttempts s;
     maxReconnectAttempts := maxReconnectAttempts s; reconnectDelay := reconnectDelay s;
     listeners := listeners s; isConnected := isConnected s;
     shouldReconnect := v; connectionListeners := connectionListeners s;
     lastToken := lastToken s; tokenRefreshCallback := tokenRefreshCallback s |}.

Definition with_connectionListeners (v : list callback) (s : SSEService) : SSEService :=
  {| eventSource := eventSource s; reconnectAttempts := reconnectAttempts s;
     maxReconnectAttempts := maxReconnectAttempts s; reconnectDelay := reconnectDelay s;
     listeners := listeners s; isConnected := isConnected s;
     shouldReconnect := shouldReconnect s; connectionListeners := v;
     lastToken := lastToken s; tokenRefreshCallback := tokenRefreshCallback s |}.

Definition with_lastToken (v : token) (s : SSEService) : SSEService :=
  {| eventSource := eventSource s; reconnectAttempts := reconnectAttempts s;
     maxReconnectAttempts := maxReconnectAttempts s; reconnectDelay := reconnectDelay s;
     listeners := listeners s; isConnected := isConnected s;
     shouldReconnect := shouldReconnect s; connectionListeners := connectionListeners s;
     lastToken := v; tokenRefreshCallback := tokenRefreshCallback s |}.

Definition with_tokenRefreshCallback (v : option hook) (s : SSEService) : SSEService :=
  {| eventSource := eventSource s; reconnectAttempts := reconnectAttempts s;
     maxReconnectAttempts := maxReconnectAttempts s; reconnectDelay := reconnectDelay s;
     listeners := listeners s; isConnected := isConnected s;
     shouldReconnect := shouldReconnect s; connectionListeners := connectionListeners s;
     lastToken := lastToken s; tokenRefreshCallback := v |}.

Definition with_this (f : SSEService -> SSEService) (w : World) : World :=
  {| this := f (this w); sources := sources w; timers := timers w;
     awaits := awaits w; promises := promises w; trace := trace w |}.

Definition with_sources (v : list EventSource) (w : World) : World :=
  {| this := this w; sources := v; timers := timers w;
     awaits := awaits w; promises := promises w; trace := trace w |}.

Definition with_timers (v : list Timer) (w : World) : World :=
  {| this := this w; sources := sources w; timers := v;
     awaits := awaits w; promises := promises w; trace := trace w |}.

Definition with_awaits (v : list Await) (w : World) : World :=
  {| this := this w; sources := sources w; timers := timers w;
     awaits := v; promises := promises w; trace := trace w |}.

Definition with_promises (v : list Promise) (w : World) : World :=
  {| this := this w; sources := sources w; timers := timers w;
     awaits := awaits w; promises := v; trace := trace w |}.

Definition with_trace (v : list effect) (w : World) : World :=
  {| this := this w; sources := sources w; timers := timers w;
     awaits := awaits w; promises := promises w; trace := v |}.

(** ** Statements: a world transformer that completes or throws *)

Inductive completion :=
| Normal (w : World)
| Throw (e : exn) (w : World).

Definition stmt := World -> completion.

Definition seq (a b : stmt) : stmt :=
  fun w => match a w with
           | Normal w' => b w'
           | Throw e w' => Throw e w'
           end.

Infix ">>" := seq (at level 61, left associativity).

Definition skip : stmt := Normal.

Definition upd (f : World -> World) : stmt := fun w => Normal (f w).

Definition throw (e : exn) : stmt := Throw e.

(** [try { body } catch (error) { handler }] *)
Definition try_catch (body : stmt) (handler : exn -> stmt) : stmt :=
  fun w => match body w with
           | Normal w' => Normal w'
           | Throw e w' => handler e w'
           end.

(** [array.forEach(f)]: a throw of [f] ends the loop. *)
Fixpoint forEach {A} (l : list A) (f : A -> stmt) : stmt :=
  match l with
  | [] => skip
  | x :: l' => f x >> forEach l' f
  end.

(** the state a completion leaves behind *)
Definition world_of (c : completion) : World :=
  match c with
  | Normal w => w
  | Throw _ w => w
  end.

Definition emits (e : effect) : stmt := upd (fun w => with_trace (trace w ++ [e]) w).

(** ** Browser primitives *)

Definition with_readyState (v : Z) (es : EventSource) : EventSource :=
  {| url := url es; withCredentials := withCredentials es; readyState := v;
     wiring := wiring es; eventTypes := eventTypes es |}.

Definition with_eventTypes (v : list string) (es : EventSource) : EventSource :=
  {| url := url es; withCredentials := withCredentials es; readyState := readyState es;
     wiring := wiring es; eventTypes := v |}.

Definition set_readyState (id : nat) (v : Z) : stmt :=
  upd (fun w => with_sources (alter (with_readyState v) id (sources w)) w).

(** [new EventSource(u, { withCredentials: true })]: the new handle is the
    next free slot and starts in [CONNECTING]. *)
Definition EventSource_new (u : string) (h : Wiring) : stmt :=
  fun w =>
    let id := length (sources w) in
    (emits (new_EventSource id u) >>
     upd (with_sources (sources w ++
       [{| url := u; withCredentials := true; readyState := CONNECTING;
           wiring := h; eventTypes := [] |}]))) w.

(** [es.close()] *)
Definition close (id : nat) : stmt :=
  emits (close_EventSource id) >> set_readyState id CLOSED.

(** [setTimeout(action, ms)] *)
Definition setTimeout (a : timer_action) (ms : Z) : stmt :=
  upd (fun w => with_timers (timers w ++ [{| delay := ms; action := a; armed := true |}]) w).

Definition disarm (t : Timer) : Timer :=
  {| delay := delay t; action := action t; armed := false |}.

(** [clearTimeout(id)] *)
Definition clearTimeout (id : nat) : stmt :=
  upd (fun w => with_timers (alter disarm id (timers w)) w).

(** [resolve(v)]: only a pending promise settles. *)
Definition resolve (p : nat) (v : Verdict) : stmt :=
  upd (fun w => match promises w !! p with
                | Some Pending => with_promises (<[p := Resolved v]> (promises w)) w
                | _ => w
                end).

(** ** The methods of [SSEService] *)

(** The fixed event types [connect] subscribes to, in source order. *)
Definition named_events : list string :=
  [ "connected"; "heartbeat"; "session_update"; "session_invitation";
    "session_invitation_accepted"; "session_invitation_rejected";
    "relationship_invitation"; "notification"; "session_deleted";
    "sessions_update"; "objective_advancement"; "session_status_change";
    "vote_update"; "objective_transition"; "session_completion";
    "end_session_vote_update"; "session_summary_generated";
    "session_summary_generating"; "session_summary_error";
    "objective_completion" ]%string.

Inductive hook_result :=
| hook_returns (newToken : token)
| hook_throws.

Section Service.
Context (E : Env).

(** calling a listener: the call is observed, then it returns or throws *)
Definition call (cb : callback) (arg : JSON) : stmt :=
  emits (invoke cb arg) >>
  (fun w => if throws E cb arg then Throw (ListenerError cb) w else Normal w).

(** [JSON.parse(data)], continued with the parsed value *)
Definition JSON_parse_then (data : string) (k : JSON -> stmt) : stmt :=
  fun w => match JSON_parse E data with
           | Some d => k d w
           | None => Throw SyntaxError w
           end.

Definition setTokenRefreshCallback (cb : option hook) : stmt :=
  upd (with_this (with_tokenRefreshCallback cb)).

Definition on (event : string) (cb : callback) : stmt :=
  (fun w => if bool_decide (is_Some (listeners (this w) !! event)) then skip w
            else upd (with_this (with_listeners (<[event := []]> (listeners (this w))))) w) >>
  upd (fun w => with_this (with_listeners
          (alter (fun l => l ++ [cb]) event (listeners (this w)))) w).

(** [callbacks.indexOf(callback)] *)
Fixpoint indexOf (l : list callback) (cb : callback) : option nat :=
  match l with
  | [] => None
  | x :: l' => if decide (x = cb) then Some 0%nat else S <$> indexOf l' cb
  end.

(** [callbacks.splice(index, 1)] *)
Definition splice1 (l : list callback) (index : nat) : list callback :=
  take index l ++ drop (S index) l.

Definition off (event : string) (cb : callback) : stmt :=
  fun w =>
    match listeners (this w) !! event with
    | Some callbacks =>
        match indexOf callbacks cb with
        | Some index =>
            upd (with_this (with_listeners
                   (<[event := splice1 callbacks index]> (listeners (this w))))) w
        | None => skip w
        end
    | None => skip w
    end.

Definition emit (event : string) (data : JSON) : stmt :=
  fun w =>
    match listeners (this w) !! event with
    | Some callbacks =>
        forEach callbacks (fun cb => try_catch (call cb data) (fun _ => skip)) w
    | None => skip w
    end.

Definition onConnectionChange (cb : callback) : stmt :=
  upd (fun w => with_this (with_connectionListeners (connectionListeners (this w) ++ [cb])) w).

Definition offConnectionChange (cb : callback) : stmt :=
  fun w =>
    match indexOf (connectionListeners (this w)) cb with
    | Some index =>
        upd (with_this (with_connectionListeners
               (splice1 (connectionListeners (this w)) index))) w
    | None => skip w
    end.

Definition notifyConnectionListeners (status : string) : stmt :=
  fun w =>
    forEach (connectionListeners (this w))
      (fun cb => try_catch (call cb (JStr status)) (fun _ => skip)) w.

Definition disconnect : stmt :=
  upd (with_this (with_shouldReconnect false)) >>
  (fun w => match eventSource (this w) with
            | Some id => (close id >> upd (with_this (with_eventSource None))) w
            | None => skip w
            end) >>
  upd (with_this (with_isConnected false)) >>
  notifyConnectionListeners "disconnected".

Definition addEventListener (eventType : string) : stmt :=
  fun w =>
    match eventSource (this w) with
    | Some id =>
        upd (with_sources
               (alter (fun es => with_eventTypes (eventTypes es ++ [eventType]) es)
                      id (sources w))) w
    | None => skip w
    end.

(** the URL of the stream, as [connect] builds it *)
Definition stream_url (tok : token) : string :=
  let u := API_BASE_URL E +:+ "/api/sse-simple/?token=" +:+
           encodeURIComponent E (ToString tok) in
  if includes (API_BASE_URL E) "ngrok"
  then u +:+ "&ngrok-skip-browser-warning=true"
  else u.

Definition connect (tok : token) : stmt :=
  (fun w => match eventSource (this w) with
            | Some _ => disconnect w
            | None => skip w
            end) >>
  (fun w =>
     if negb (truthy tok) then emits (console_error ["SSE: No token provided"]) w
     else
       (upd (with_this (with_lastToken tok)) >>
        emits (console_log ["SSE: Connecting to:"; mask_token (stream_url tok)]) >>
        (fun w' =>
           (EventSource_new (stream_url tok) (SessionHandlers tok) >>
            upd (with_this (with_eventSource (Some (length (sources w')))))) w') >>
        forEach named_events addEventListener) w).

Definition handleReconnect (tok : token) : stmt :=
  fun w =>
    if reconnectAttempts (this w) <? maxReconnectAttempts (this w) then
      (upd (with_this (with_reconnectAttempts (reconnectAttempts (this w) + 1))) >>
       (fun w' => setTimeout (retry tok)
                    (reconnectDelay (this w') * reconnectAttempts (this w')) w')) w
    else
      emit "connection_failed"
           (JObj [("error", JStr "Max reconnection attempts reached")]) w.

(** ** The handlers [connect] installs on its handle *)

Definition onopen : stmt :=
  upd (with_this (with_isConnected true)) >>
  upd (with_this (with_reconnectAttempts 0)) >>
  emit "connected" (JObj [("status", JStr "connected")]) >>
  notifyConnectionListeners "connected".

Definition onmessage (data : string) : stmt :=
  try_catch (JSON_parse_then data (fun d => emit "message" d)) (fun _ => skip).

(** [this.eventSource.readyState]; a [TypeError] when the field is null *)
Definition this_readyState (k : Z -> stmt) : stmt :=
  fun w =>
    match eventSource (this w) with
    | Some id =>
        match sources w !! id with
        | Some es => k (readyState es) w
        | None => Throw TypeError w
        end
    | None => Throw TypeError w
    end.

(** [onerror] up to its [await]: it either finishes, or calls the hook
    and parks its continuation in [awaits]. *)
Definition onerror (tok : token) : stmt :=
  this_readyState (fun _ => emits (console_error ["SSE: Connection error"])) >>
  upd (with_this (with_isConnected false)) >>
  notifyConnectionListeners "disconnected" >>
  this_readyState (fun rs w =>
    if rs =? 2 then
      if shouldReconnect (this w) then
        (emits (console_log ["SSE: Connection closed, attempting to reconnect..."]) >>
         (fun w' =>
            match tokenRefreshCallback (this w') with
            | Some h =>
                if reconnectAttempts (this w') =? 0 then
                  (emits (console_log ["SSE: Attempting to refresh token before reconnect..."]) >>
                   emits (invoke_hook h) >>
                   upd (fun w'' => with_awaits
                          (awaits w'' ++ [{| k_token := tok; k_waiting := true |}]) w'')) w'
                else handleReconnect tok w'
            | None => handleReconnect tok w'
            end)) w
      else skip w
    else skip w).

(** [onerror] from its [await] on, once the hook's promise has settled *)
Definition onerror_resume (tok : token) (r : hook_result) : stmt :=
  fun w =>
    match r with
    | hook_returns newToken =>
        if truthy newToken && negb (bool_decide (newToken = lastToken (this w))) then
          (emits (console_log ["SSE: Got new token, reconnecting..."]) >>
           connect newToken) w
        else handleReconnect tok w
    | hook_throws =>
        (emits (console_error ["SSE: Token refresh failed:"]) >>
         handleReconnect tok) w
    end.

(** the listener registered for one of the [named_events] *)
Definition named_listener (eventType : string) (data : string) : stmt :=
  if String.eqb eventType "connected" then JSON_parse_then data (fun _ => skip)
  else if String.eqb eventType "heartbeat" then skip
  else JSON_parse_then data (fun d => emit eventType d).

Definition getConnectionStatus (w : World)
  : bool * Z * bool * option Z * option string :=
  let es := eventSource (this w) ≫= (fun id => sources w !! id) in
  (isConnected (this w), reconnectAttempts (this w), shouldReconnect (this w),
   readyState <$> es, url <$> es).

(** ** The connection probe *)

Definition reject (p : nat) (e : exn) : stmt :=
  upd (fun w => match promises w !! p with
                | Some Pending => with_promises (<[p := Rejected e]> (promises w)) w
                | _ => w
                end).

Definition source_readyState (id : nat) (w : World) : option Z :=
  readyState <$> sources w !! id.

Definition test_url (tok : token) : string :=
  API_BASE_URL E +:+ "/api/sse-simple/?token=" +:+ encodeURIComponent E (ToString tok).

(** The body handed to [new Promise]. [testUrl] is declared [const], so
    the [+=] of the tunnel flag throws a [TypeError] when it is reached. *)
Definition testConnection_executor (tok : token) (p : nat) : stmt :=
  (fun w => if includes (API_BASE_URL E) "ngrok" then throw TypeError w else skip w) >>
  emits (console_log ["SSE: Testing connection to:"; mask_token (test_url tok)]) >>
  (fun w =>
     let id := length (sources w) in
     let t := length (timers w) in
     (EventSource_new (test_url tok) (ProbeHandlers p t) >>
      setTimeout (probe_timeout id p) 10000) w).

(** [testConnection(token)]: the promise it returns is the next free slot
    of [promises]; a throw of the executor rejects it. *)
Definition testConnection (tok : token) : stmt :=
  fun w =>
    let p := length (promises w) in
    (upd (with_promises (promises w ++ [Pending])) >>
     try_catch (testConnection_executor tok p) (fun e => reject p e)) w.

Definition probe_onopen (id p t : nat) : stmt :=
  clearTimeout t >> close id >>
  resolve p {| success := true; message := Some "Connection successful";
               error := None; v_readyState := None; details := false |}.

Definition probe_onerror (id p t : nat) : stmt :=
  clearTimeout t >> close id >>
  (fun w => resolve p {| success := false; message := None;
                         error := Some "Connection failed";
                         v_readyState := source_readyState id w;
                         details := true |} w).

Definition probe_ontimeout (id p : nat) : stmt :=
  close id >>
  (fun w => resolve p {| success := false; message := None;
                         error := Some "Connection timeout";
                         v_readyState := source_readyState id w;
                         details := false |} w).

(** ** The event loop

    What the browser does with a handle: a closed handle dispatches
    nothing; [open] and [error] set the ready state before the handler
    runs, a fatal error leaving the handle [CLOSED] and a transient one
    [CONNECTING]. An event of the stream goes to the listeners of its
    type and leaves the ready state alone: without a type it is a
    [message]; [onmessage], [onopen] and [onerror] are the listeners of
    the types [message], [open] and [error], set before any
    [addEventListener], so they run first. What a listener throws is
    reported and the next listener still runs. *)

Inductive transport_event :=
| ev_open
| ev_message (data : string)
| ev_named (eventType data : string)
| ev_error (fatal : bool).

(** the handler property of the session handle that listens to a type *)
Definition session_handler (tok : token) (eventType data : string) : stmt :=
  if String.eqb eventType "message" then onmessage data
  else if String.eqb eventType "open" then onopen
  else if String.eqb eventType "error" then onerror tok
  else skip.

(** the same for a probe handle, which has no [onmessage] *)
Definition probe_handler (id p t : nat) (eventType : string) : stmt :=
  if String.eqb eventType "open" then probe_onopen id p t
  else if String.eqb eventType "error" then probe_onerror id p t
  else skip.

Definition next_listener (first second : stmt) : stmt :=
  fun w =>
    match first w with
    | Normal w' => second w'
    | Throw e w' => second (with_trace (trace w' ++ [uncaught e]) w')
    end.

Definition dispatch (id : nat) (ev : transport_event) : stmt :=
  fun w =>
    match sources w !! id with
    | None => skip w
    | Some es =>
        if readyState es =? CLOSED then skip w
        else
          match wiring es, ev with
          | SessionHandlers _, ev_open => (set_readyState id OPEN >> onopen) w
          | SessionHandlers _, ev_message data => onmessage data w
          | SessionHandlers tok, ev_named ty data =>
              next_listener (session_handler tok ty data)
                (if bool_decide (ty ∈ eventTypes es) then named_listener ty data
                 else skip) w
          | SessionHandlers tok, ev_error fatal =>
              (set_readyState id (if fatal then CLOSED else CONNECTING) >> onerror tok) w
          | ProbeHandlers p t, ev_open => (set_readyState id OPEN >> probe_onopen id p t) w
          | ProbeHandlers p t, ev_error fatal =>
              (set_readyState id (if fatal then CLOSED else CONNECTING) >>
               probe_onerror id p t) w
          | ProbeHandlers p t, ev_named ty _ => probe_handler id p t ty w
          | ProbeHandlers _ _, ev_message _ => skip w
          end
    end.

(** the callback given to [setTimeout] *)
Definition timer_callback (a : timer_action) : stmt :=
  match a with
  | retry tok => fun w => if shouldReconnect (this w) then connect tok w else skip w
  | probe_timeout id p => probe_ontimeout id p
  end.

Definition fire (i : nat) : stmt :=
  fun w =>
    match timers w !! i with
    | Some t => if armed t then (clearTimeout i >> timer_callback (action t)) w else skip w
    | None => skip w
    end.

Definition settle (k : nat) (r : hook_result) : stmt :=
  fun w =>
    match awaits w !! k with
    | Some a =>
        if k_waiting a then
          (upd (with_awaits (<[k := {| k_token := k_token a; k_waiting := false |}]> (awaits w)))
           >> onerror_resume (k_token a) r) w
        else skip w
    | None => skip w
    end.

(** One turn of the event loop: a call of the public surface, or an event
    the browser delivers. *)
Inductive op :=
| call_connect (tok : token)
| call_disconnect
| call_setTokenRefreshCallback (cb : option hook)
| call_on (event : string) (cb : callback)
| call_off (event : string) (cb : callback)
| call_onConnectionChange (cb : callback)
| call_offConnectionChange (cb : callback)
| call_testConnection (tok : token)
| transport (id : nat) (ev : transport_event)
| timer_fires (i : nat)
| hook_settles (k : nat) (r : hook_result).

Definition run_op (o : op) : stmt :=
  match o with
  | call_connect tok => connect tok
  | call_disconnect => disconnect
  | call_setTokenRefreshCallback cb => setTokenRefreshCallback cb
  | call_on event cb => on event cb
  | call_off event cb => off event cb
  | call_onConnectionChange cb => onConnectionChange cb
  | call_offConnectionChange cb => offConnectionChange cb
  | call_testConnection tok => testConnection tok
  | transport id ev => dispatch id ev
  | timer_fires i => fire i
  | hook_settles k r => settle k r
  end.

(** an exception that leaves a turn is reported by the browser *)
Definition step (o : op) (w : World) : World :=
  match run_op o w with
  | Normal w' => w'
  | Throw e w' => with_trace (trace w' ++ [uncaught e]) w'
  end.

Definition run (ops : list op) (w : World) : World :=
  fold_left (fun w o => step o w) ops w.

End Service.

(** ** Vocabulary of the statements *)

(** the callbacks registered for an event, oldest first *)
Definition registered (event : string) (w : World) : list callback :=
  default [] (listeners (this w) !! event).

(** one observed call per callback of a list, in list order *)
Definition calls (data : JSON) (l : list callback) : list effect :=
  (fun cb => invoke cb data) <$> l.

(** removing the first occurrence of a callback, stated on its own *)
Fixpoint remove_first (cb : callback) (l : list callback) : list callback :=
  match l with
  | [] => []
  | x :: l' => if decide (x = cb) then l' else x :: remove_first cb l'
  end.

(** how often a callback occurs among registrations *)
Definition occurrences (cb : callback) (l : list callback) : nat :=
  length (filter (fun x => x = cb) l).

(** how often an effect occurs in a trace *)
Fixpoint count_invocations (cb : callback) (tr : list effect) : nat :=
  match tr with
  | [] => 0%nat
  | invoke cb' _ :: tr' =>
      if decide (cb' = cb) then S (count_invocations cb tr') else count_invocations cb tr'
  | _ :: tr' => count_invocations cb tr'
  end.

(** ** The worlds the methods leave *)

(** the world [disconnect] leaves *)
Definition disconnected (w : World) : World :=
  {| this := with_isConnected false
               (with_eventSource None (with_shouldReconnect false (this w)));
     sources := match eventSource (this w) with
                | Some id => alter (with_readyState CLOSED) id (sources w)
                | None => sources w
                end;
     timers := timers w;
     awaits := awaits w;
     promises := promises w;
     trace := trace w
              ++ match eventSource (this w) with
                 | Some id => [close_EventSource id]
                 | None => []
                 end
              ++ calls (JStr "disconnected") (connectionListeners (this w)) |}.

(** the step of [connect] that releases a handle the service still holds *)
Definition released (w : World) : World :=
  match eventSource (this w) with
  | Some _ => disconnected w
  | None => w
  end.

(** the world [connect] leaves once the old handle is released and the
    token is accepted *)
Definition opened (E : Env) (tok : token) (w : World) : World :=
  {| this := with_eventSource (Some (length (sources w)))
               (with_lastToken tok (this w));
     sources := sources w ++
       [{| url := stream_url E tok; withCredentials := true;
           readyState := CONNECTING; wiring := SessionHandlers tok;
           eventTypes := named_events |}];
     timers := timers w;
     awaits := awaits w;
     promises := promises w;
     trace := trace w ++
       [console_log ["SSE: Connecting to:"; mask_token (stream_url E tok)];
        new_EventSource (length (sources w)) (stream_url E tok)] |}.

(** the world [handleReconnect] leaves while attempts remain *)
Definition retry_scheduled (tok : token) (w : World) : World :=
  with_timers
    (timers w ++
       [{| delay := reconnectDelay (this w) * (reconnectAttempts (this w) + 1);
           action := retry tok; armed := true |}])
    (with_this (with_reconnectAttempts (reconnectAttempts (this w) + 1)) w).

(** the world [handleReconnect] leaves once the attempts are used up *)
Definition gave_up (w : World) : World :=
  with_trace
    (trace w ++
       calls (JObj [("error", JStr "Max reconnection attempts reached")])
             (registered "connection_failed" w))
    w.

(** the world [testConnection] leaves when the origin is reached directly *)
Definition probing (E : Env) (tok : token) (w : World) : World :=
  {| this := this w;
     sources := sources w ++
       [{| url := test_url E tok; withCredentials := true;
           readyState := CONNECTING;
           wiring := ProbeHandlers (length (promises w)) (length (timers w));
           eventTypes := [] |}];
     timers := timers w ++
       [{| delay := 10000;
           action := probe_timeout (length (sources w)) (length (promises w));
           armed := true |}];
     awaits := awaits w;
     promises := promises w ++ [Pending];
     trace := trace w ++
       [console_log ["SSE: Testing connection to:"; mask_token (test_url E tok)];
        new_EventSource (length (sources w)) (test_url E tok)] |}.

(** how often the refresh hook was called *)
Fixpoint hook_calls (tr : list effect) : nat :=
  match tr with
  | [] => 0%nat
  | invoke_hook _ :: tr' => S (hook_calls tr')
  | _ :: tr' => hook_calls tr'
  end.

(** what the suspended [onerror] does when the hook did not deliver a
    new token: it calls the policy with the token of its [connect] *)
Definition falls_through (E : Env) (tok : token) (c : completion) (w1 : World) : Prop :=
  exists w1',
    c = handleReconnect E tok w1'
    /\ this w1' = this w1
    /\ timers w1' = timers w1
    /\ sources w1' = sources w1
    /\ hook_calls (trace w1') = hook_calls (trace w1).

(** ** Invariants of the event loop *)

(** a timer list that only grew at the end and only lost armed flags *)
Definition timers_extend (l l' : list Timer) : Prop :=
  forall i t, l !! i = Some t ->
    exists t', l' !! i = Some t' /\ action t' = action t
               /\ (armed t' = true -> armed t = true).

Definition live (es : EventSource) : bool := negb (readyState es =? CLOSED).

Definition of_session (es : EventSource) : bool :=
  match wiring es with
  | SessionHandlers _ => true
  | ProbeHandlers _ _ => false
  end.

(** the handles [connect] opened that the browser still serves *)
Fixpoint live_from (i : nat) (l : list EventSource) : list nat :=
  match l with
  | [] => []
  | es :: l' =>
      if of_session es && live es then i :: live_from (S i) l'
      else live_from (S i) l'
  end.

Definition live_session_handles (w : World) : list nat := live_from 0 (sources w).

(** every live handle of the service is the one it holds *)
Definition wf_on (e : option nat) (src : list EventSource) : Prop :=
  forall id es, src !! id = Some es -> of_session es = true -> live es = true ->
                e = Some id.

Definition wf (w : World) : Prop := wf_on (eventSource (this w)) (sources w).

(** no handle of the service is live *)
Definition quiet (src : list EventSource) : Prop :=
  forall id es, src !! id = Some es -> of_session es = true -> live es = false.

(** ** Sample collaborators for the worked examples *)

(** a [JSON.parse] that accepts the three literals and rejects the rest *)
Definition parse_literal (s : string) : option JSON :=
  if String.eqb s "null" then Some JNull
  else if String.eqb s "true" then Some (JBool true)
  else if String.eqb s "false" then Some (JBool false)
  else None.

(** a direct API origin; listener 7 throws on every call *)
Definition direct_env : Env :=
  {| API_BASE_URL := "https://api.example.org";
     encodeURIComponent := fun s => s;
     JSON_parse := parse_literal;
     throws := fun cb _ => Nat.eqb cb 7 |}.

(** the same behind an ngrok tunnel *)
Definition tunnel_env : Env :=
  {| API_BASE_URL := "https://abc123.ngrok.io";
     encodeURIComponent := fun s => s;
     JSON_parse := parse_literal;
     throws := fun cb _ => Nat.eqb cb 7 |}.

(** ** Counting what can still lead to a retry *)

Definition is_retry (t : Timer) : bool :=
  match action t with
  | retry _ => true
  | probe_timeout _ _ => false
  end.

(** the retry timers ever set *)
Fixpoint retries (l : list Timer) : nat :=
  match l with
  | [] => 0%nat
  | t :: l' => ((if is_retry t then 1 else 0) + retries l')%nat
  end.

(** the [onerror] handlers still waiting for the refresh hook *)
Fixpoint waiting (l : list Await) : nat :=
  match l with
  | [] => 0%nat
  | a :: l' => ((if k_waiting a then 1 else 0) + waiting l')%nat
  end.

(** the service holds no handle yet, or one the browser still serves *)
Definition current_live (e : option nat) (src : list EventSource) : bool :=
  match e with
  | None => true
  | Some id =>
      match src !! id with
      | Some es => live es
      | None => false
      end
  end.

(** whether a fatal error can still enter the reconnection path *)
Definition can_retry (flag : bool) (e : option nat) (src : list EventSource) : nat :=
  if flag && current_live e src then 1%nat else 0%nat.

(** the handle the service holds is one of the handles that exist *)
Definition in_range (e : option nat) (src : list EventSource) : Prop :=
  match e with
  | Some id => (id < length src)%nat
  | None => True
  end.

(** what is left, and what was used, of the single automatic retry *)
Definition retry_budget (w : World) : nat :=
  (retries (timers w) + waiting (awaits w)
   + can_retry (shouldReconnect (this w)) (eventSource (this w)) (sources w))%nat.

Definition within_budget (w : World) : Prop :=
  in_range (eventSource (this w)) (sources w)
  /\ (retry_budget w <= 1)%nat
  /\ 0 <= reconnectAttempts (this w) <= Z.of_nat (retries (timers w)).

Definition one_retry (w : World) : Prop := wf w /\ within_budget w.

(** * Properties *)

(** ** Basic facts about statements *)

Section Basics.
Context (E : Env).

Lemma with_trace_id w : with_trace (trace w) w = w.
Proof. by destruct w. Qed.

Lemma forEach_app {A} (l1 l2 : list A) (f : A -> stmt) w :
  forEach (l1 ++ l2) f w = (forEach l1 f >> forEach l2 f) w.
Proof.
  revert w. induction l1 as [|x l1 IH]; intros w; simpl; [done|].
  unfold seq in *. destruct (f x w) as [w'|e w']; [|done].
  by rewrite IH.
Qed.

(** A guarded call always completes and leaves one observed call. *)
Lemma guarded_call cb data w :
  try_catch (call E cb data) (fun _ => skip) w
  = Normal (with_trace (trace w ++ [invoke cb data]) w).
Proof.
  unfold try_catch, call, seq, emits, upd, skip.
  by destruct (throws E cb data).
Qed.

(** The fan-out loop of [emit] and [notifyConnectionListeners]: every
    callback of the list is called, in order, whatever the others do. *)
Lemma fan_out l data w :
  forEach l (fun cb => try_catch (call E cb data) (fun _ => skip)) w
  = Normal (with_trace (trace w ++ calls data l) w).
Proof.
  revert w. induction l as [|cb l IH]; intros w; simpl.
  - unfold skip, calls. simpl. rewrite app_nil_r. by rewrite with_trace_id.
  - unfold seq. rewrite guarded_call, IH. destruct w; simpl.
    unfold with_trace; simpl. by rewrite <- app_assoc.
Qed.

Lemma emit_eq event data w :
  emit E event data w
  = Normal (with_trace (trace w ++ calls data (registered event w)) w).
Proof.
  unfold emit, registered. destruct (listeners (this w) !! event) as [l|]; simpl.
  - apply fan_out.
  - unfold skip, calls. simpl. rewrite app_nil_r. by rewrite with_trace_id.
Qed.

Lemma notifyConnectionListeners_eq status w :
  notifyConnectionListeners E status w
  = Normal (with_trace (trace w ++ calls (JStr status) (connectionListeners (this w))) w).
Proof. apply fan_out. Qed.

End Basics.

(** ** The listener registry *)

Section Registry.
Context (E : Env).

Lemma splice_indexOf l cb i :
  indexOf l cb = Some i -> splice1 l i = remove_first cb l.
Proof.
  revert i. induction l as [|x l IH]; intros i; simpl; [done|].
  destruct (decide (x = cb)) as [->|Hne].
  - intros [= <-]. unfold splice1. simpl. by rewrite drop_0.
  - destruct (indexOf l cb) as [j|] eqn:Hj; simpl; [|done].
    intros [= <-]. unfold splice1 in *. simpl. by rewrite (IH j).
Qed.

Lemma indexOf_None l cb : indexOf l cb = None -> remove_first cb l = l.
Proof.
  induction l as [|x l IH]; simpl; [done|].
  destruct (decide (x = cb)); [done|].
  destruct (indexOf l cb); simpl; [done|]. intros _. by rewrite IH.
Qed.

Lemma occurrences_app cb l1 l2 :
  occurrences cb (l1 ++ l2) = (occurrences cb l1 + occurrences cb l2)%nat.
Proof. unfold occurrences. by rewrite filter_app, length_app. Qed.

Lemma occurrences_remove_first cb l :
  occurrences cb (remove_first cb l) = Nat.pred (occurrences cb l).
Proof.
  unfold occurrences. induction l as [|x l IH]; simpl; [done|].
  destruct (decide (x = cb)) as [->|Hne].
  - by rewrite filter_cons_True.
  - rewrite !filter_cons_False by done. done.
Qed.


Lemma count_invocations_calls cb data l :
  count_invocations cb (calls data l) = occurrences cb l.
Proof.
  unfold occurrences. induction l as [|x l IH]; [done|].
  change (calls data (x :: l)) with (invoke x data :: calls data l).
  cbn [count_invocations].
  destruct (decide (x = cb)) as [->|Hne].
  - rewrite filter_cons_True by done. simpl. by rewrite IH.
  - by rewrite filter_cons_False.
Qed.

Lemma on_eq event cb w :
  on event cb w
  = Normal (with_this (with_listeners
              (<[event := registered event w ++ [cb]]> (listeners (this w)))) w).
Proof.
  unfold on, seq, registered, upd, skip.
  destruct (listeners (this w) !! event) as [l|] eqn:Hl; simpl.
  - f_equal.
    destruct w as [s ? ? ? ? ?]; destruct s; simpl in *.
    unfold with_this, with_listeners; simpl. do 2 f_equal.
    apply map_eq; intros k. rewrite lookup_alter, lookup_insert.
    destruct (decide (event = k)) as [->|]; [by rewrite Hl|done].
  - f_equal.
    destruct w as [s ? ? ? ? ?]; destruct s; simpl in *.
    unfold with_this, with_listeners; simpl. do 2 f_equal.
    apply map_eq; intros k. rewrite lookup_alter, !lookup_insert.
    destruct (decide (event = k)) as [->|]; [|done].
    by rewrite decide_True.
Qed.

Lemma registered_on event cb w w' :
  on event cb w = Normal w' ->
  registered event w' = registered event w ++ [cb].
Proof.
  rewrite on_eq. intros [= <-]. unfold registered at 1. simpl.
  by rewrite lookup_insert_eq.
Qed.

Lemma off_spec event cb w :
  exists w', off event cb w = Normal w'
    /\ registered event w' = remove_first cb (registered event w)
    /\ (forall e', e' <> event -> registered e' w' = registered e' w)
    /\ trace w' = trace w.
Proof.
  unfold off, registered.
  destruct (listeners (this w) !! event) as [l|] eqn:Hl; simpl.
  - destruct (indexOf l cb) as [i|] eqn:Hi.
    + eexists; split; [reflexivity|]. simpl. split; [|split; [|done]].
      * rewrite lookup_insert_eq. simpl. by apply splice_indexOf.
      * intros e' Hne. by rewrite lookup_insert_ne.
    + eexists; split; [reflexivity|]. rewrite Hl. simpl.
      by rewrite indexOf_None.
  - eexists; split; [reflexivity|]. by rewrite Hl.
Qed.

End Registry.

(** ** What [disconnect] and [connect] compute *)

Section Lifecycle.
Context (E : Env).

Lemma disconnect_eq w : disconnect E w = Normal (disconnected w).
Proof.
  unfold disconnect, seq, upd, skip, close, emits, set_readyState, seq, upd.
  destruct w as [s src tm aw pr tr]; destruct s as [es ? ? ? ? ? ? cl ? ?].
  destruct es as [id|]; simpl; rewrite notifyConnectionListeners_eq; simpl;
    unfold disconnected, with_trace; simpl; f_equal; f_equal.
  by rewrite <- app_assoc.
Qed.

Lemma addEventListeners_last tys l es w :
  sources w = l ++ [es] ->
  eventSource (this w) = Some (length l) ->
  forEach tys addEventListener w
  = Normal (with_sources (l ++ [with_eventTypes (eventTypes es ++ tys) es]) w).
Proof.
  revert es w. induction tys as [|ty tys IH]; intros es w Hsrc Hes; simpl.
  - unfold skip. f_equal. rewrite app_nil_r.
    destruct w, es; simpl in *. unfold with_sources, with_eventTypes; simpl.
    by rewrite Hsrc.
  - unfold seq, addEventListener at 1. rewrite Hes. unfold upd.
    rewrite (IH (with_eventTypes (eventTypes es ++ [ty]) es)).
    + f_equal. unfold with_sources; simpl. rewrite <- app_assoc. done.
    + simpl. rewrite Hsrc.
      rewrite alter_app_r_alt by lia. rewrite Nat.sub_diag. simpl.
      done.
    + done.
Qed.

Lemma connect_falsy tok w :
  truthy tok = false ->
  connect E tok w
  = Normal (with_trace (trace (released w) ++ [console_error ["SSE: No token provided"]])
                       (released w)).
Proof.
  intros Ht. unfold connect, seq, released. rewrite Ht. simpl.
  destruct (eventSource (this w)); [rewrite disconnect_eq|]; done.
Qed.

Lemma connect_truthy tok w :
  truthy tok = true ->
  connect E tok w = Normal (opened E tok (released w)).
Proof.
  intros Ht. unfold connect, seq. rewrite Ht. cbn [negb].
  assert (Hrel : (match eventSource (this w) with
                  | Some _ => disconnect E w
                  | None => skip w
                  end) = Normal (released w)).
  { unfold released. destruct (eventSource (this w)); [apply disconnect_eq|done]. }
  rewrite Hrel. set (w0 := released w).
  unfold upd, emits, EventSource_new, seq, upd, emits, upd.
  rewrite (addEventListeners_last named_events (sources w0)
             {| url := stream_url E tok; withCredentials := true;
                readyState := CONNECTING; wiring := SessionHandlers tok;
                eventTypes := [] |}); [| reflexivity | reflexivity ].
  unfold opened, with_sources, with_trace, with_eventTypes. cbn -[named_events].
  f_equal. f_equal. by rewrite <- app_assoc.
Qed.

End Lifecycle.

(** ** What the reconnection policy and the handlers compute *)

Section Policy.
Context (E : Env).

Lemma connect_eq tok w :
  connect E tok w
  = Normal (if truthy tok then opened E tok (released w)
            else with_trace (trace (released w)
                             ++ [console_error ["SSE: No token provided"]])
                            (released w)).
Proof.
  destruct (truthy tok) eqn:Ht.
  - by apply connect_truthy.
  - by apply connect_falsy.
Qed.

Lemma handleReconnect_eq tok w :
  handleReconnect E tok w
  = Normal (if reconnectAttempts (this w) <? maxReconnectAttempts (this w)
            then retry_scheduled tok w else gave_up w).
Proof.
  unfold handleReconnect.
  destruct (reconnectAttempts (this w) <? maxReconnectAttempts (this w)).
  - reflexivity.
  - apply emit_eq.
Qed.

Lemma onopen_eq w :
  onopen E w
  = Normal (with_trace
              (trace w
               ++ calls (JObj [("status", JStr "connected")]) (registered "connected" w)
               ++ calls (JStr "connected") (connectionListeners (this w)))
              (with_this (fun s => with_reconnectAttempts 0 (with_isConnected true s)) w)).
Proof.
  unfold onopen, seq, upd. rewrite emit_eq, notifyConnectionListeners_eq.
  unfold with_trace, registered; simpl. by rewrite <- app_assoc.
Qed.

Lemma onmessage_eq data w :
  onmessage E data w
  = Normal (match JSON_parse E data with
            | Some d => with_trace (trace w ++ calls d (registered "message" w)) w
            | None => w
            end).
Proof.
  unfold onmessage, try_catch, JSON_parse_then.
  destruct (JSON_parse E data); [by rewrite emit_eq|done].
Qed.

Lemma timer_callback_retry_eq tok w :
  timer_callback E (retry tok) w
  = if shouldReconnect (this w) then connect E tok w else Normal w.
Proof. reflexivity. Qed.

End Policy.

(** ** Typed events of the stream *)

(** none of the twenty subscribed types is the type of a handler property *)
Lemma subscribed_is_no_handler eventType :
  eventType ∈ named_events ->
  eventType <> "message" /\ eventType <> "open" /\ eventType <> "error".
Proof.
  intros Hin. split_and!; intros ->;
    by refine (bool_decide_eq_false_1 _ _ Hin); vm_compute.
Qed.

(** an event whose type is none of [message], [open] and [error] goes to
    the listener [addEventListener] gave for it, if there is one *)
Lemma dispatch_named E id es tok eventType data w :
  sources w !! id = Some es ->
  (readyState es =? CLOSED) = false ->
  wiring es = SessionHandlers tok ->
  eventType <> "message" -> eventType <> "open" -> eventType <> "error" ->
  dispatch E id (ev_named eventType data) w
  = if bool_decide (eventType ∈ eventTypes es) then named_listener E eventType data w
    else Normal w.
Proof.
  intros Hes Hc Hwire Hm Ho He. unfold dispatch. rewrite Hes, Hc, Hwire.
  unfold next_listener, session_handler.
  destruct (String.eqb eventType "message") eqn:H1; [by apply String.eqb_eq in H1|].
  destruct (String.eqb eventType "open") eqn:H2; [by apply String.eqb_eq in H2|].
  destruct (String.eqb eventType "error") eqn:H3; [by apply String.eqb_eq in H3|].
  unfold skip at 1. by destruct (bool_decide (eventType ∈ eventTypes es)).
Qed.

(** ** Symbolic execution of a turn *)

Create Rewrite HintDb stmt_eq.
#[export] Hint Rewrite connect_eq disconnect_eq handleReconnect_eq onopen_eq onmessage_eq
  emit_eq notifyConnectionListeners_eq : stmt_eq.

(** open the handlers and primitives of a turn, keeping the methods whose
    result is given by an equation of [stmt_eq] *)
Ltac unfold_turn :=
  unfold run_op, dispatch, next_listener, session_handler, probe_handler, fire, settle,
    timer_callback, onerror, onerror_resume,
    named_listener, this_readyState, JSON_parse_then, testConnection,
    testConnection_executor, probe_onopen, probe_onerror, probe_ontimeout,
    setTokenRefreshCallback, on, off, onConnectionChange, offConnectionChange,
    close, set_readyState, clearTimeout, setTimeout, resolve, reject,
    EventSource_new, emits, try_catch, seq, upd, skip, throw in *.

(** reduce field reads of updated records *)
Ltac simp_world :=
  cbn [world_of this sources timers awaits promises trace
       eventSource reconnectAttempts maxReconnectAttempts reconnectDelay listeners
       isConnected shouldReconnect connectionListeners lastToken tokenRefreshCallback
       with_eventSource with_reconnectAttempts with_listeners with_isConnected
       with_shouldReconnect with_connectionListeners with_lastToken
       with_tokenRefreshCallback with_this with_sources with_timers with_awaits
       with_promises with_trace].

(** run a turn symbolically: rewrite with the equations, reduce, and split
    on the next condition the code tests *)
Ltac exec_turn :=
  unfold_turn;
  repeat (first
    [ progress autorewrite with stmt_eq
    | progress simp_world
    | match goal with
      | H : ?x = _ |- context [match ?x with _ => _ end] => rewrite H
      end
    | match goal with
      | |- context [match ?x with _ => _ end] =>
          lazymatch x with
          | context [match _ with _ => _ end] => fail
          | _ => destruct x eqn:?
          end
      end ]).

(** ** Timers and live handles *)

Lemma timers_extend_refl l : timers_extend l l.
Proof. intros i t Ht. eauto. Qed.

Lemma timers_extend_trans l1 l2 l3 :
  timers_extend l1 l2 -> timers_extend l2 l3 -> timers_extend l1 l3.
Proof.
  intros H12 H23 i t Ht.
  destruct (H12 i t Ht) as (t2 & Ht2 & Ha2 & Hr2).
  destruct (H23 i t2 Ht2) as (t3 & Ht3 & Ha3 & Hr3).
  exists t3. repeat split; [done|congruence|auto].
Qed.

Lemma timers_extend_app l l' : timers_extend l (l ++ l').
Proof. intros i t Ht. exists t. by rewrite (lookup_app_l_Some _ _ _ _ Ht). Qed.

Lemma timers_extend_disarm l j : timers_extend l (alter disarm j l).
Proof.
  intros i t Ht. destruct (decide (j = i)) as [->|Hne].
  - exists (disarm t). rewrite list_lookup_alter_eq, Ht. by destruct t.
  - exists t. by rewrite list_lookup_alter_ne.
Qed.

Lemma quiet_wf_on e src : quiet src -> wf_on e src.
Proof. intros Hq id es Hes Hs Hl. rewrite (Hq id es Hes Hs) in Hl. done. Qed.

Lemma wf_on_None_quiet src : wf_on None src -> quiet src.
Proof.
  intros Hwf id es Hes Hs. destruct (live es) eqn:Hl; [|done].
  by specialize (Hwf id es Hes Hs Hl).
Qed.

Lemma wf_on_close_quiet j src :
  wf_on (Some j) src -> quiet (alter (with_readyState CLOSED) j src).
Proof.
  intros Hwf id es Hes Hs. destruct (decide (j = id)) as [->|Hne].
  - rewrite list_lookup_alter_eq in Hes.
    destruct (src !! id) as [es0|]; simpl in Hes; [|done].
    by injection Hes as <-.
  - rewrite list_lookup_alter_ne in Hes by done.
    destruct (live es) eqn:Hl; [|done].
    specialize (Hwf id es Hes Hs Hl). congruence.
Qed.

Lemma quiet_close j src : quiet src -> quiet (alter (with_readyState CLOSED) j src).
Proof.
  intros Hq id es Hes Hs. destruct (decide (j = id)) as [->|Hne].
  - rewrite list_lookup_alter_eq in Hes.
    destruct (src !! id) as [es0|]; simpl in Hes; [|done].
    by injection Hes as <-.
  - rewrite list_lookup_alter_ne in Hes by done. eauto.
Qed.

Lemma wf_on_close e j src :
  wf_on e src -> wf_on e (alter (with_readyState CLOSED) j src).
Proof.
  intros Hwf id es Hes Hs Hl. destruct (decide (j = id)) as [->|Hne].
  - rewrite list_lookup_alter_eq in Hes.
    destruct (src !! id) as [es0|]; simpl in Hes; [|done].
    injection Hes as <-. done.
  - rewrite list_lookup_alter_ne in Hes by done. eauto.
Qed.

Lemma wf_on_readyState e j v src es0 :
  wf_on e src -> src !! j = Some es0 -> (readyState es0 =? CLOSED) = false ->
  wf_on e (alter (with_readyState v) j src).
Proof.
  intros Hwf Hj Hopen id es Hes Hs Hl. destruct (decide (j = id)) as [->|Hne].
  - rewrite list_lookup_alter_eq, Hj in Hes. injection Hes as <-.
    apply (Hwf id es0 Hj); [done|]. unfold live. by rewrite Hopen.
  - rewrite list_lookup_alter_ne in Hes by done. eauto.
Qed.

Lemma wf_on_push_probe e src es :
  wf_on e src -> of_session es = false -> wf_on e (src ++ [es]).
Proof.
  intros Hwf Hp id es' Hes Hs Hl.
  apply lookup_app_Some in Hes as [Hes|[Hlen Hes]]; [eauto|].
  apply list_lookup_singleton_Some in Hes as [_ <-]. congruence.
Qed.

Lemma quiet_push e src es : quiet src -> e = Some (length src) -> wf_on e (src ++ [es]).
Proof.
  intros Hq -> id es' Hes Hs Hl.
  apply lookup_app_Some in Hes as [Hes|[Hlen Hes]].
  - rewrite (Hq id es' Hes Hs) in Hl. done.
  - apply list_lookup_singleton_Some in Hes as [Hid _]. f_equal. lia.
Qed.

Lemma quiet_released w : wf w -> quiet (sources (released w)).
Proof.
  unfold wf, released. intros Hwf.
  destruct (eventSource (this w)) as [j|] eqn:He; simpl.
  - rewrite He. by apply wf_on_close_quiet.
  - by apply wf_on_None_quiet.
Qed.

Lemma wf_released w : wf w -> wf (released w).
Proof.
  intros Hwf. apply quiet_wf_on. by apply quiet_released.
Qed.

Lemma wf_disconnected w : wf w -> wf (disconnected w).
Proof.
  intros Hwf. unfold wf, disconnected; simpl.
  destruct (eventSource (this w)) as [j|] eqn:He.
  - apply quiet_wf_on, wf_on_close_quiet. unfold wf in Hwf. by rewrite He in Hwf.
  - unfold wf in Hwf. by rewrite He in Hwf.
Qed.

Lemma wf_opened E tok w : wf w -> wf (opened E tok (released w)).
Proof.
  intros Hwf. unfold wf, opened; simpl.
  apply quiet_push; [by apply quiet_released|done].
Qed.

Lemma wf_with_trace t w : wf w -> wf (with_trace t w).
Proof. done. Qed.

Lemma wf_initial : wf initial.
Proof. intros id es Hes. done. Qed.

Section Invariants.
Context (E : Env).

Lemma step_extends_timers o w : timers_extend (timers w) (timers (step E o w)).
Proof.
  unfold step.
  destruct o as [tok| |cb|ev cb|ev cb|cb|cb|tok|id ev|i|k r];
    try destruct ev; try destruct r; exec_turn.
  all: try (simpl; apply timers_extend_refl).
  all: unfold released, opened, disconnected, retry_scheduled, gave_up in *;
    repeat case_match; simpl.
  all: try apply timers_extend_refl.
  all: try apply timers_extend_app.
  all: try apply timers_extend_disarm.
Qed.


(** Every turn keeps the live handles of the service down to the one it
    holds. *)
Lemma step_wf o w : wf w -> wf (step E o w).
Proof.
  intros Hwf. unfold step.
  destruct o as [tok| |cb|ev cb|ev cb|cb|cb|tok|id ev|i|k r];
    try destruct ev; try destruct r; exec_turn.
  all: try (simpl; exact Hwf).
  all: repeat first
    [ apply wf_opened | apply wf_with_trace | apply wf_released
    | apply wf_disconnected ].
  all: try (simpl; exact Hwf).
  all: unfold wf, retry_scheduled, gave_up in *; simpl.
  all: try exact Hwf.
  all: try (eapply wf_on_readyState; [exact Hwf|eassumption|eassumption]).
  all: try (by apply wf_on_close).
  all: try (apply wf_on_push_probe; [exact Hwf|done]).
  all: apply wf_on_close; eapply wf_on_readyState; [exact Hwf|eassumption|eassumption].
Qed.

(** No turn of the event loop switches auto-reconnect back on. *)
Lemma step_keeps_reconnect_off o w :
  shouldReconnect (this w) = false ->
  shouldReconnect (this (step E o w)) = false.
Proof.
  intros Hoff. unfold step.
  destruct o as [tok| |cb|ev cb|ev cb|cb|cb|tok|id ev|i|k r];
    try destruct ev; try destruct r; exec_turn.
  all: try (simpl; done).
  all: unfold released, opened, disconnected, retry_scheduled, gave_up in *;
    repeat case_match; simpl; done.
Qed.

Lemma run_app ops1 ops2 w : run E (ops1 ++ ops2) w = run E ops2 (run E ops1 w).
Proof. unfold run. by rewrite fold_left_app. Qed.

Lemma run_snoc ops o w : run E (ops ++ [o]) w = step E o (run E ops w).
Proof. by rewrite run_app. Qed.

Lemma run_wf ops w : wf w -> wf (run E ops w).
Proof.
  revert w. induction ops as [|o ops IH]; intros w Hwf; simpl; [done|].
  apply IH. by apply step_wf.
Qed.

Lemma run_keeps_reconnect_off ops w :
  shouldReconnect (this w) = false ->
  shouldReconnect (this (run E ops w)) = false.
Proof.
  revert w. induction ops as [|o ops IH]; intros w Hoff; simpl; [done|].
  apply IH. by apply step_keeps_reconnect_off.
Qed.

(** every world the event loop can reach from a new service object *)
Lemma reachable_wf ops : wf (run E ops initial).
Proof. apply run_wf, wf_initial. Qed.

Lemma run_extends_timers ops w : timers_extend (timers w) (timers (run E ops w)).
Proof.
  revert w. induction ops as [|o ops IH]; intros w; simpl.
  - apply timers_extend_refl.
  - eapply timers_extend_trans; [apply step_extends_timers|apply IH].
Qed.

End Invariants.

(** ** Fan-out of the listener registry *)

Section FanOut.
Context (E : Env).

Lemma occurrences_twice (cb : callback) : occurrences cb [cb; cb] = 2%nat.
Proof. unfold occurrences. by rewrite !filter_cons_True. Qed.

Lemma on_spec event cb w :
  exists w', on event cb w = Normal w'
    /\ registered event w' = registered event w ++ [cb]
    /\ (forall e', e' <> event -> registered e' w' = registered e' w)
    /\ trace w' = trace w.
Proof.
  eexists. split; [apply on_eq|]. unfold registered; simpl.
  split; [by rewrite lookup_insert_eq|]. split; [|done].
  intros e' Hne. by rewrite lookup_insert_ne.
Qed.

(** C9. [emit] calls every callback registered for the event, oldest
    registration first, each under its own [try]/[catch]: it completes
    normally whatever the callbacks do, changes nothing but the record of
    calls, and the calls are exactly the registrations in order. A second
    [on] of the same callback adds a second call per [emit], and one [off]
    removes the first matching registration only, so one call fewer is
    made. *)
Theorem emit_calls_each_registration_in_order event data cb w :
  emit E event data w
  = Normal (with_trace (trace w ++ calls data (registered event w)) w)
  /\ exists w1 w2 w3,
       on event cb w = Normal w1
       /\ on event cb w1 = Normal w2
       /\ off event cb w2 = Normal w3
       /\ registered event w2 = registered event w ++ [cb; cb]
       /\ trace (world_of (emit E event data w2))
          = trace w ++ calls data (registered event w) ++ [invoke cb data; invoke cb data]
       /\ registered event w3 = remove_first cb (registered event w ++ [cb; cb])
       /\ count_invocations cb (calls data (registered event w2))
          = (occurrences cb (registered event w) + 2)%nat
       /\ count_invocations cb (calls data (registered event w3))
          = (occurrences cb (registered event w) + 1)%nat
       /\ trace (world_of (emit E event data w3))
          = trace w ++ calls data (remove_first cb (registered event w ++ [cb; cb])).
Proof.
  split; [apply emit_eq|].
  destruct (on_spec event cb w) as (w1 & Hon1 & Hreg1 & _ & Htr1).
  destruct (on_spec event cb w1) as (w2 & Hon2 & Hreg2 & _ & Htr2).
  destruct (off_spec event cb w2) as (w3 & Hoff & Hreg3 & _ & Htr3).
  rewrite Hreg1, <- app_assoc in Hreg2. simpl in Hreg2.
  rewrite Hreg2 in Hreg3.
  exists w1, w2, w3. repeat split; try done.
  - rewrite emit_eq. simpl. rewrite Hreg2, Htr2, Htr1. unfold calls.
    by rewrite fmap_app.
  - rewrite Hreg2, count_invocations_calls, occurrences_app.
    by rewrite occurrences_twice.
  - rewrite Hreg3, count_invocations_calls, occurrences_remove_first, occurrences_app.
    rewrite occurrences_twice. lia.
  - rewrite emit_eq. simpl. by rewrite Hreg3, Htr3, Htr2, Htr1.
Qed.

End FanOut.

(** ** The reconnection policy *)

Section Backoff.
Context (E : Env).

(** a fatal error on the handle the service holds, with auto-reconnect on
    and no token refresh to try, goes straight to the policy *)
Lemma fatal_error_reaches_policy id es tok w :
  sources w !! id = Some es ->
  readyState es <> CLOSED ->
  wiring es = SessionHandlers tok ->
  eventSource (this w) = Some id ->
  shouldReconnect (this w) = true ->
  tokenRefreshCallback (this w) = None \/ reconnectAttempts (this w) <> 0 ->
  exists w0,
    this w0 = with_isConnected false (this w)
    /\ timers w0 = timers w
    /\ dispatch E id (ev_error true) w = handleReconnect E tok w0
    /\ sources w0 = alter (with_readyState CLOSED) id (sources w)
    /\ trace w0
       = trace w
         ++ console_error ["SSE: Connection error"]
            :: calls (JStr "disconnected") (connectionListeners (this w))
         ++ [console_log ["SSE: Connection closed, attempting to reconnect..."]]
    /\ awaits w0 = awaits w.
Proof.
  intros Hes Hlive Hwire Hcur Hflag Hhook.
  unfold dispatch. rewrite Hes.
  destruct (readyState es =? CLOSED) eqn:Hc; [apply Z.eqb_eq in Hc; done|].
  rewrite Hwire.
  unfold seq at 1. unfold set_readyState at 1, upd at 1.
  unfold onerror, seq, this_readyState. simpl. rewrite Hcur.
  rewrite list_lookup_alter_eq, Hes. simpl.
  unfold emits, upd. rewrite notifyConnectionListeners_eq. simpl.
  rewrite Hcur, list_lookup_alter_eq, Hes. simpl. rewrite Hflag.
  assert (Hpolicy : forall w0 : World,
            trace w0
            = ((trace w ++ [console_error ["SSE: Connection error"]])
               ++ calls (JStr "disconnected") (connectionListeners (this w)))
              ++ [console_log ["SSE: Connection closed, attempting to reconnect..."]] ->
            trace w0
            = trace w
              ++ console_error ["SSE: Connection error"]
                 :: calls (JStr "disconnected") (connectionListeners (this w))
              ++ [console_log ["SSE: Connection closed, attempting to reconnect..."]]).
  { intros w0 ->. by rewrite <- !app_assoc. }
  destruct Hhook as [Hnone|Hn0].
  - rewrite Hnone. eexists. split_and!; [| |reflexivity| |apply Hpolicy|]; done.
  - destruct (tokenRefreshCallback (this w)).
    + destruct (reconnectAttempts (this w) =? 0) eqn:H0; [apply Z.eqb_eq in H0; done|].
      eexists. split_and!; [| |reflexivity| |apply Hpolicy|]; done.
    + eexists. split_and!; [| |reflexivity| |apply Hpolicy|]; done.
Qed.



End Backoff.




(** ** Cancellation, the missing token and the auto-reconnect flag *)

Section Cancellation.
Context (E : Env).

Lemma step_disconnect w : step E call_disconnect w = disconnected w.
Proof. unfold step. simpl. by rewrite disconnect_eq. Qed.

Lemma step_connect tok w :
  step E (call_connect tok) w
  = if truthy tok then opened E tok (released w)
    else with_trace (trace (released w) ++ [console_error ["SSE: No token provided"]])
                    (released w).
Proof. unfold step. simpl. by rewrite connect_eq. Qed.

Lemma alter_disarm_fired i t (l : list Timer) :
  l !! i = Some t -> armed t = false -> alter disarm i l = l.
Proof.
  intros Hl Ha. apply list_eq. intros j.
  destruct (decide (i = j)) as [->|Hne].
  - rewrite list_lookup_alter_eq, Hl. simpl. f_equal. destruct t; simpl in *. by subst.
  - by rewrite list_lookup_alter_ne.
Qed.

(** a retry timer that fires with auto-reconnect off only leaves the
    timer table marked *)
Lemma fire_retry_when_off i t tok w :
  timers w !! i = Some t ->
  action t = retry tok ->
  shouldReconnect (this w) = false ->
  fire E i w = Normal (with_timers (alter disarm i (timers w)) w).
Proof.
  intros Ht Ha Hoff. unfold fire. rewrite Ht.
  destruct (armed t) eqn:Harmed.
  - unfold seq, clearTimeout, upd. rewrite Ha. simpl. by rewrite Hoff.
  - unfold skip. rewrite (alter_disarm_fired i t) by done. by destruct w.
Qed.

(** C4. A retry that is pending when [disconnect()] is called does
    nothing when its timer fires later, whatever turns of the event loop
    come in between: auto-reconnect is still off, so the callback does not
    call [connect]; the service object, the handles and the record of
    effects are as before the timer fired. *)
Theorem disconnect_silences_pending_retry i t tok ops w :
  timers w !! i = Some t ->
  action t = retry tok ->
  armed t = true ->
  let w1 := step E call_disconnect w in
  let w2 := run E ops w1 in
  let w3 := step E (timer_fires i) w2 in
  shouldReconnect (this w2) = false
  /\ this w3 = this w2
  /\ sources w3 = sources w2
  /\ trace w3 = trace w2
  /\ awaits w3 = awaits w2
  /\ promises w3 = promises w2
  /\ timers w3 = alter disarm i (timers w2).
Proof.
  intros Ht Ha Harmed w1 w2 w3.
  assert (Hoff : shouldReconnect (this w2) = false).
  { apply run_keeps_reconnect_off. unfold w1. by rewrite step_disconnect. }
  destruct (run_extends_timers E ops w1 i t) as (t' & Ht' & Ha' & _).
  { unfold w1. by rewrite step_disconnect. }
  fold w2 in Ht'.
  unfold w3, step. simpl.
  rewrite (fire_retry_when_off i t' tok) by congruence.
  done.
Qed.

(** C7, as the code has it. [connect] with a missing or empty token first
    releases the handle the service holds, if any, exactly as
    [disconnect()] does, then logs and returns. It never opens a handle
    and never touches the token, the attempt counter, the timers or the
    registries. When the service holds no handle nothing changes but the
    log. *)
Theorem connect_without_token_releases_then_aborts tok w :
  truthy tok = false ->
  exists w',
    connect E tok w = Normal w'
    /\ trace w' = trace (released w) ++ [console_error ["SSE: No token provided"]]
    /\ this w' = this (released w)
    /\ sources w' = sources (released w)
    /\ length (sources w') = length (sources w)
    /\ lastToken (this w') = lastToken (this w)
    /\ reconnectAttempts (this w') = reconnectAttempts (this w)
    /\ listeners (this w') = listeners (this w)
    /\ timers w' = timers w
    /\ (eventSource (this w) = None -> this w' = this w /\ sources w' = sources w
          /\ trace w' = trace w ++ [console_error ["SSE: No token provided"]])
    /\ (forall id, eventSource (this w) = Some id ->
          this w' = with_isConnected false
                      (with_eventSource None (with_shouldReconnect false (this w)))
          /\ sources w' = alter (with_readyState CLOSED) id (sources w)).
Proof.
  intros Hfalsy. eexists. split; [by apply connect_falsy|].
  unfold released, disconnected.
  destruct (eventSource (this w)) as [id|] eqn:Hes; simpl; rewrite ?Hes.
  - split_and!; try done.
    + by rewrite length_alter.
    + by intros id' [= <-].
  - split_and!; done.
Qed.

(** [onerror] with auto-reconnect off: it reports, and that is all *)
Lemma error_when_off id ev_fatal w :
  shouldReconnect (this w) = false ->
  let w' := step E (transport id (ev_error ev_fatal)) w in
  length (timers w') = length (timers w)
  /\ awaits w' = awaits w
  /\ length (sources w') = length (sources w)
  /\ reconnectAttempts (this w') = reconnectAttempts (this w)
  /\ eventSource (this w') = eventSource (this w).
Proof.
  intros Hoff w'. unfold w'. clear w'.
  set (P := fun w' : World =>
              length (timers w') = length (timers w)
              /\ awaits w' = awaits w
              /\ length (sources w') = length (sources w)
              /\ reconnectAttempts (this w') = reconnectAttempts (this w)
              /\ eventSource (this w') = eventSource (this w)).
  change (P (step E (transport id (ev_error ev_fatal)) w)).
  unfold step. exec_turn.
  all: subst P; simp_world; rewrite ?length_alter; try done.
  all: congruence.
Qed.

(** C10. Auto-reconnect is on in a new service object and no turn of the
    event loop switches it back on once it is off. [disconnect()] switches
    it off, and so does every [connect] that finds a handle in place, the
    retry of a fired timer included. From then on a transport error,
    fatal or not, schedules no timer, calls no refresh hook, opens no
    handle and leaves the attempt counter alone. *)
Theorem auto_reconnect_never_returns :
  shouldReconnect constructor = true
  /\ (forall w, shouldReconnect (this (step E call_disconnect w)) = false)
  /\ (forall tok w id, eventSource (this w) = Some id ->
        shouldReconnect (this (step E (call_connect tok) w)) = false)
  /\ (forall i t tok w id,
        timers w !! i = Some t -> armed t = true -> action t = retry tok ->
        shouldReconnect (this w) = true -> eventSource (this w) = Some id ->
        shouldReconnect (this (step E (timer_fires i) w)) = false)
  /\ (forall o w, shouldReconnect (this w) = false ->
        shouldReconnect (this (step E o w)) = false)
  /\ (forall ops w, shouldReconnect (this w) = false ->
        shouldReconnect (this (run E ops w)) = false)
  /\ (forall ops w id fatal, shouldReconnect (this w) = false ->
        let w' := run E ops w in
        let w'' := step E (transport id (ev_error fatal)) w' in
        length (timers w'') = length (timers w')
        /\ awaits w'' = awaits w'
        /\ length (sources w'') = length (sources w')
        /\ reconnectAttempts (this w'') = reconnectAttempts (this w')).
Proof.
  split; [done|]. split; [intros w; by rewrite step_disconnect|].
  assert (Hsup : forall tok w id, eventSource (this w) = Some id ->
            shouldReconnect (this (step E (call_connect tok) w)) = false).
  { intros tok w id Hes. rewrite step_connect. unfold released. rewrite Hes.
    by destruct (truthy tok). }
  split; [exact Hsup|]. split.
  { intros i t tok w id Ht Harmed Ha Hon Hes.
    unfold step. simpl. unfold fire. rewrite Ht, Harmed.
    unfold seq, clearTimeout, upd. rewrite Ha. simpl. rewrite Hon.
    specialize (Hsup tok (with_timers (alter disarm i (timers w)) w) id Hes).
    unfold step in Hsup. simpl in Hsup. exact Hsup. }
  split; [apply step_keeps_reconnect_off|].
  split; [apply run_keeps_reconnect_off|].
  intros ops w id fatal Hoff w' w''.
  destruct (error_when_off id fatal w') as (? & ? & ? & ? & _); [|done].
  by apply run_keeps_reconnect_off.
Qed.

End Cancellation.

Lemma disconnect_silences_pending_retry_witness :
  let w := run direct_env [call_connect (Str "t"); transport 0%nat (ev_error true)] initial in
  let w2 := run direct_env [call_on "notification" 3%nat] (step direct_env call_disconnect w) in
  let w3 := step direct_env (timer_fires 0%nat) w2 in
  timers w !! 0%nat = Some {| delay := 1000; action := retry (Str "t"); armed := true |}
  /\ this w3 = this w2 /\ sources w3 = sources w2 /\ trace w3 = trace w2.
Proof.
  intros w w2 w3.
  assert (Ht : timers w !! 0%nat
               = Some {| delay := 1000; action := retry (Str "t"); armed := true |})
    by (vm_compute; reflexivity).
  split; [exact Ht|].
  destruct (disconnect_silences_pending_retry direct_env 0%nat _
              (Str "t") [call_on "notification" 3%nat] w
              Ht eq_refl eq_refl) as (_ & H1 & H2 & H3 & _).
  split; [exact H1|]. split; [exact H2|exact H3].
Defined.

(** C7 as stated fails: with a handle in place, [connect(null)] closes it
    and switches auto-reconnect off. *)
Lemma connect_without_token_has_side_effects :
  ~ (forall (E : Env) (tok : token) (w : World),
       truthy tok = false ->
       this (world_of (connect E tok w)) = this w
       /\ sources (world_of (connect E tok w)) = sources w).
Proof.
  intros H.
  destruct (H direct_env null (world_of (connect direct_env (Str "t") initial)) eq_refl)
    as [Hthis _].
  apply (f_equal shouldReconnect) in Hthis. vm_compute in Hthis. discriminate.
Qed.

Lemma connect_without_token_releases_then_aborts_witness :
  let w := world_of (connect direct_env (Str "t") initial) in
  truthy null = false
  /\ exists w',
      connect direct_env null w = Normal w'
      /\ shouldReconnect (this w') = false
      /\ eventSource (this w') = None
      /\ (readyState <$> sources w' !! 0%nat) = Some CLOSED
      /\ length (sources w') = 1%nat.
Proof.
  intros w. split; [reflexivity|].
  destruct (connect_without_token_releases_then_aborts direct_env null w eq_refl)
    as (w' & Hrun & _ & Hthis & Hsrc & _).
  exists w'. split; [exact Hrun|].
  rewrite Hthis, Hsrc. repeat split.
Defined.

Lemma hook_calls_app t1 t2 : hook_calls (t1 ++ t2) = (hook_calls t1 + hook_calls t2)%nat.
Proof.
  induction t1 as [|e t1 IH]; simpl; [done|]. destruct e; simpl; by rewrite ?IH.
Qed.

Lemma hook_calls_calls data l : hook_calls (calls data l) = 0%nat.
Proof. induction l as [|cb l IH]; [done|]. exact IH. Qed.

Lemma length_sources_released w : length (sources (released w)) = length (sources w).
Proof.
  unfold released, disconnected. destruct (eventSource (this w)) eqn:He; simpl; [|done].
  by rewrite length_alter.
Qed.

Lemma quiet_cons_inv es l :
  quiet (es :: l) -> (of_session es && live es = false) /\ quiet l.
Proof.
  intros Hq. split.
  - destruct (of_session es) eqn:Hs; [|done]. simpl. by apply (Hq 0%nat es).
  - intros id es' Hes'. by apply (Hq (S id) es').
Qed.

Lemma live_from_quiet_push i l es :
  quiet l ->
  live_from i (l ++ [es])
  = if of_session es && live es then [(i + length l)%nat] else [].
Proof.
  revert i. induction l as [|x l IH]; intros i Hq; simpl.
  - rewrite Nat.add_0_r. by destruct (of_session es && live es).
  - apply quiet_cons_inv in Hq as [Hx Hq]. rewrite Hx, (IH (S i) Hq).
    replace (S i + length l)%nat with (i + S (length l))%nat by lia. done.
Qed.

(** ** Superseding a connection and refreshing the token *)

Section Supersede.
Context (E : Env).

Lemma sources_opened tok w :
  sources (opened E tok w)
  = sources w ++ [{| url := stream_url E tok; withCredentials := true;
                     readyState := CONNECTING; wiring := SessionHandlers tok;
                     eventTypes := named_events |}].
Proof. reflexivity. Qed.

Lemma eventSource_opened tok w :
  eventSource (this (opened E tok w)) = Some (length (sources w)).
Proof. reflexivity. Qed.

Lemma trace_opened tok w :
  trace (opened E tok w)
  = trace w ++ [console_log ["SSE: Connecting to:"; mask_token (stream_url E tok)];
                new_EventSource (length (sources w)) (stream_url E tok)].
Proof. reflexivity. Qed.

(** C1. From a state in which the only live handle of the service is the
    one it holds, [connect(T)] followed at once by [connect(T')], [T'] a
    token, leaves exactly one live handle of the service: the one the
    service holds, freshly opened on the URL built from [T']; the browser
    dispatches nothing on any other handle of the service. When [T] is a
    token too, the handle opened for [T] is the one before the new handle:
    it has been closed, and its [close] precedes the creation of the new
    handle in the record of effects. *)
Theorem connect_twice_leaves_one_live_handle T T' w :
  wf w ->
  truthy T' = true ->
  exists w1 w2,
    connect E T w = Normal w1
    /\ connect E T' w1 = Normal w2
    /\ let h2 := length (sources w1) in
       eventSource (this w2) = Some h2
       /\ sources w2 !! h2
          = Some {| url := stream_url E T'; withCredentials := true;
                    readyState := CONNECTING; wiring := SessionHandlers T';
                    eventTypes := named_events |}
       /\ live_session_handles w2 = [h2]
       /\ lastToken (this w2) = T'
       /\ (forall id ev es,
             id <> h2 -> sources w2 !! id = Some es -> of_session es = true ->
             dispatch E id ev w2 = Normal w2)
       /\ (truthy T = true ->
           let h1 := length (sources w) in
           h2 = S h1
           /\ eventSource (this w1) = Some h1
           /\ sources w1 !! h1
              = Some {| url := stream_url E T; withCredentials := true;
                        readyState := CONNECTING; wiring := SessionHandlers T;
                        eventTypes := named_events |}
           /\ sources w2 !! h1
              = Some {| url := stream_url E T; withCredentials := true;
                        readyState := CLOSED; wiring := SessionHandlers T;
                        eventTypes := named_events |}
           /\ trace w2
              = trace w1
                ++ close_EventSource h1
                   :: calls (JStr "disconnected") (connectionListeners (this w))
                ++ [console_log ["SSE: Connecting to:"; mask_token (stream_url E T')];
                    new_EventSource h2 (stream_url E T')]).
Proof.
  intros Hwf HT'.
  set (w1 := if truthy T then opened E T (released w)
             else with_trace (trace (released w)
                              ++ [console_error ["SSE: No token provided"]])
                             (released w)).
  assert (Hrun1 : connect E T w = Normal w1) by apply connect_eq.
  assert (Hwf1 : wf w1).
  { unfold w1. destruct (truthy T).
    - by apply wf_opened.
    - by apply wf_with_trace, wf_released. }
  assert (Hfirst : truthy T = true ->
            eventSource (this w1) = Some (length (sources w))
            /\ sources w1 !! length (sources w)
               = Some {| url := stream_url E T; withCredentials := true;
                         readyState := CONNECTING; wiring := SessionHandlers T;
                         eventTypes := named_events |}
            /\ length (sources w1) = S (length (sources w))
            /\ connectionListeners (this w1) = connectionListeners (this w)).
  { intros HT. unfold w1. rewrite HT. split_and!.
    - by rewrite eventSource_opened, length_sources_released.
    - rewrite sources_opened, <- (length_sources_released w).
      by rewrite lookup_app_r, Nat.sub_diag.
    - rewrite sources_opened, length_app, length_sources_released. simpl. lia.
    - unfold opened, released, disconnected; simpl.
      by destruct (eventSource (this w)). }
  assert (Hlen1 : length (sources (released w1)) = length (sources w1))
    by apply length_sources_released.
  assert (Hq1 : quiet (sources (released w1))) by by apply quiet_released.
  clearbody w1.
  exists w1, (opened E T' (released w1)).
  split; [exact Hrun1|]. split; [by apply connect_truthy|].
  intros h2. subst h2.
  split; [by rewrite eventSource_opened, Hlen1|].
  split.
  { rewrite sources_opened, <- Hlen1. by rewrite lookup_app_r, Nat.sub_diag. }
  split.
  { unfold live_session_handles. rewrite sources_opened.
    rewrite live_from_quiet_push by done. simpl. by rewrite Hlen1. }
  split; [done|].
  split.
  { intros id ev es Hid Hes Hs.
    assert (Hlk := Hes).
    rewrite sources_opened in Hes.
    apply lookup_app_Some in Hes as [Hes|[Hge Hes]].
    - assert (Hl : live es = false) by by apply (Hq1 id es).
      unfold dispatch. rewrite Hlk.
      unfold live in Hl. apply negb_false_iff in Hl. by rewrite Hl.
    - apply list_lookup_singleton_Some in Hes as [Hz _].
      rewrite Hlen1 in *. lia. }
  intros HT h1. subst h1.
  destruct (Hfirst HT) as (Hcur1 & Hsrc1 & Hlen & Hcl).
  assert (Hrel1 : released w1 = disconnected w1) by (unfold released; by rewrite Hcur1).
  split; [exact Hlen|]. split; [exact Hcur1|]. split; [exact Hsrc1|].
  split.
  - rewrite sources_opened.
    rewrite lookup_app_l by (rewrite Hlen1, Hlen; lia).
    rewrite Hrel1. unfold disconnected; simpl. rewrite Hcur1.
    by rewrite list_lookup_alter_eq, Hsrc1.
  - rewrite trace_opened, Hlen1, Hrel1.
    unfold disconnected; simpl. rewrite Hcur1, Hcl. simpl.
    by rewrite <- !app_assoc.
Qed.

(** C3. A fatal error on the handle the service holds, with
    auto-reconnect on and the attempt counter at 0: when a refresh hook is
    registered it is called once and [onerror] waits for it, scheduling
    nothing. If it then returns a non-empty token that differs from
    [lastToken], the service connects with that token at once, the
    counter stays 0 and no timer is set. If it throws or returns the token
    already held, and likewise when no hook is registered, [onerror] calls
    [handleReconnect] with the token of its [connect]. *)
Theorem first_failure_tries_token_refresh id es tok w :
  sources w !! id = Some es ->
  readyState es <> CLOSED ->
  wiring es = SessionHandlers tok ->
  eventSource (this w) = Some id ->
  shouldReconnect (this w) = true ->
  reconnectAttempts (this w) = 0 ->
  (forall h, tokenRefreshCallback (this w) = Some h ->
     exists w1,
       dispatch E id (ev_error true) w = Normal w1
       /\ trace w1
          = trace w
            ++ console_error ["SSE: Connection error"]
               :: calls (JStr "disconnected") (connectionListeners (this w))
            ++ [console_log ["SSE: Connection closed, attempting to reconnect..."];
                console_log ["SSE: Attempting to refresh token before reconnect..."];
                invoke_hook h]
       /\ hook_calls (trace w1) = S (hook_calls (trace w))
       /\ awaits w1 = awaits w ++ [{| k_token := tok; k_waiting := true |}]
       /\ timers w1 = timers w
       /\ reconnectAttempts (this w1) = 0
       /\ lastToken (this w1) = lastToken (this w)
       /\ (forall newToken,
             truthy newToken = true -> newToken <> lastToken (this w) ->
             exists w2,
               settle E (length (awaits w)) (hook_returns newToken) w1 = Normal w2
               /\ eventSource (this w2) = Some (length (sources w))
               /\ sources w2 !! length (sources w)
                  = Some {| url := stream_url E newToken; withCredentials := true;
                            readyState := CONNECTING;
                            wiring := SessionHandlers newToken;
                            eventTypes := named_events |}
               /\ lastToken (this w2) = newToken
               /\ reconnectAttempts (this w2) = 0
               /\ timers w2 = timers w
               /\ hook_calls (trace w2) = hook_calls (trace w1))
       /\ falls_through E tok (settle E (length (awaits w)) hook_throws w1) w1
       /\ falls_through E tok
            (settle E (length (awaits w)) (hook_returns (lastToken (this w))) w1) w1
       /\ (forall t, truthy t = false ->
             falls_through E tok (settle E (length (awaits w)) (hook_returns t) w1) w1))
  /\ (tokenRefreshCallback (this w) = None ->
      exists w0,
        this w0 = with_isConnected false (this w)
        /\ timers w0 = timers w
        /\ dispatch E id (ev_error true) w = handleReconnect E tok w0).
Proof.
  intros Hes Hlive Hwire Hcur Hflag Hzero. split.
  2:{ intros Hnone.
      destruct (fatal_error_reaches_policy E id es tok w) as (w0 & ? & ? & ? & _); auto.
      by exists w0. }
  intros h Hhook.
  assert (Hc : (readyState es =? CLOSED) = false) by by apply Z.eqb_neq.
  eexists. split.
  { unfold dispatch. rewrite Hes, Hc, Hwire.
    unfold seq at 1. unfold set_readyState at 1, upd at 1.
    unfold onerror, seq, this_readyState. simpl. rewrite Hcur.
    rewrite list_lookup_alter_eq, Hes. simpl.
    unfold emits, upd. rewrite notifyConnectionListeners_eq. simpl.
    rewrite Hcur, list_lookup_alter_eq, Hes. simpl. rewrite Hflag, Hhook, Hzero.
    simpl. reflexivity. }
  simpl.
  split; [by rewrite <- !app_assoc|].
  split.
  { rewrite !hook_calls_app, hook_calls_calls. simpl. lia. }
  split; [done|]. split; [done|]. split; [done|]. split; [done|].
  split; [|split; [|split]].
  - intros newToken Htruthy Hnew. eexists. split.
    { unfold settle. simpl. rewrite lookup_app_r, Nat.sub_diag by done. simpl.
      unfold seq, upd, onerror_resume. simpl. rewrite Htruthy.
      rewrite bool_decide_eq_false_2 by done. simpl.
      unfold seq, emits, upd. rewrite connect_truthy by done. reflexivity. }
    unfold opened, released; simpl. rewrite Hcur.
    unfold disconnected; simpl. rewrite Hcur. rewrite !length_alter.
    split; [done|].
    split.
    { rewrite lookup_app_r by (rewrite !length_alter; lia).
      by rewrite !length_alter, Nat.sub_diag. }
    split; [done|]. split; [done|]. split; [done|].
    rewrite !hook_calls_app, !hook_calls_calls. simpl. lia.
  - eexists. split.
    { unfold settle. simpl. rewrite lookup_app_r, Nat.sub_diag by done. simpl.
      unfold seq, upd, onerror_resume. simpl. unfold seq, emits, upd. reflexivity. }
    simpl. split; [done|]. split; [done|]. split; [done|].
    rewrite !hook_calls_app, !hook_calls_calls. simpl. lia.
  - eexists. split.
    { unfold settle. simpl. rewrite lookup_app_r, Nat.sub_diag by done. simpl.
      unfold seq, upd, onerror_resume. simpl.
      rewrite bool_decide_eq_true_2 by done. rewrite andb_false_r. reflexivity. }
    simpl. done.
  - intros t Hfalsy. eexists. split.
    { unfold settle. simpl. rewrite lookup_app_r, Nat.sub_diag by done. simpl.
      unfold seq, upd, onerror_resume. simpl. rewrite Hfalsy. reflexivity. }
    simpl. done.
Qed.

End Supersede.

Lemma connect_twice_leaves_one_live_handle_witness :
  wf initial
  /\ truthy (Str "b") = true
  /\ exists w1 w2,
       connect direct_env (Str "a") initial = Normal w1
       /\ connect direct_env (Str "b") w1 = Normal w2
       /\ live_session_handles w2 = [1%nat]
       /\ (url <$> sources w2 !! 1%nat)
          = Some "https://api.example.org/api/sse-simple/?token=b"
       /\ (readyState <$> sources w2 !! 0%nat) = Some CLOSED.
Proof.
  split; [exact wf_initial|]. split; [reflexivity|].
  destruct (connect_twice_leaves_one_live_handle direct_env (Str "a") (Str "b") initial
              wf_initial eq_refl)
    as (w1 & w2 & H1 & H2 & _ & Hnew & Hlive & _ & _ & Hfirst).
  destruct (Hfirst eq_refl) as (Hlen & _ & _ & Hold & _).
  simpl in Hlen, Hold. rewrite Hlen in Hnew, Hlive.
  exists w1, w2. split; [exact H1|]. split; [exact H2|].
  split; [exact Hlive|]. rewrite Hnew, Hold. split; reflexivity.
Defined.

Lemma first_failure_tries_token_refresh_witness :
  let w := run direct_env [call_setTokenRefreshCallback (Some 9%nat);
                           call_connect (Str "old")] initial in
  eventSource (this w) = Some 0%nat
  /\ shouldReconnect (this w) = true
  /\ reconnectAttempts (this w) = 0
  /\ tokenRefreshCallback (this w) = Some 9%nat
  /\ exists w1,
       dispatch direct_env 0%nat (ev_error true) w = Normal w1
       /\ hook_calls (trace w1) = S (hook_calls (trace w))
       /\ timers w1 = timers w
       /\ exists w2,
            settle direct_env (length (awaits w)) (hook_returns (Str "new")) w1 = Normal w2
            /\ lastToken (this w2) = Str "new"
            /\ reconnectAttempts (this w2) = 0
            /\ timers w2 = timers w.
Proof.
  intros w.
  assert (Hes : sources w !! 0%nat
                = Some {| url := stream_url direct_env (Str "old");
                          withCredentials := true; readyState := CONNECTING;
                          wiring := SessionHandlers (Str "old");
                          eventTypes := named_events |})
    by (vm_compute; reflexivity).
  assert (Hcur : eventSource (this w) = Some 0%nat) by (vm_compute; reflexivity).
  assert (Hflag : shouldReconnect (this w) = true) by (vm_compute; reflexivity).
  assert (Hzero : reconnectAttempts (this w) = 0) by (vm_compute; reflexivity).
  assert (Hhook : tokenRefreshCallback (this w) = Some 9%nat) by (vm_compute; reflexivity).
  assert (Hlast : Str "new" <> lastToken (this w)) by (vm_compute; discriminate).
  assert (Hlive : readyState {| url := stream_url direct_env (Str "old");
                                withCredentials := true; readyState := CONNECTING;
                                wiring := SessionHandlers (Str "old");
                                eventTypes := named_events |} <> CLOSED)
    by (vm_compute; discriminate).
  destruct (first_failure_tries_token_refresh direct_env 0%nat _ (Str "old") w
              Hes Hlive eq_refl Hcur Hflag Hzero) as [Hwith _].
  destruct (Hwith 9%nat Hhook)
    as (w1 & Hrun & _ & Hcalls & _ & Htm & _ & _ & Hnew & _).
  destruct (Hnew (Str "new") eq_refl Hlast) as (w2 & Hset & _ & _ & Hl & Ha & Ht & _).
  split; [exact Hcur|]. split; [exact Hflag|]. split; [exact Hzero|].
  split; [exact Hhook|].
  exists w1. split; [exact Hrun|]. split; [exact Hcalls|]. split; [exact Htm|].
  exists w2. split; [exact Hset|]. split; [exact Hl|]. split; [exact Ha|exact Ht].
Defined.

(** ** Where the code departs from its description *)

Section Defects.
Context (E : Env).

(** C6, where the code departs from it. The listener [connect] registers
    for a named event calls [JSON.parse] with no [try] around it: on a
    payload that does not parse, the [SyntaxError] leaves the listener,
    and the turn ends with the exception reported by the browser. The
    generic [onmessage] handler, which has the [try]/[catch], completes
    normally on the same payload. The service object is untouched, and a
    later payload that parses is still fanned out. *)
Theorem named_event_parse_failure_escapes eventType data w :
  eventType ∈ named_events ->
  eventType <> "heartbeat" ->
  JSON_parse E data = None ->
  named_listener E eventType data w = Throw SyntaxError w
  /\ onmessage E data w = Normal w
  /\ (forall id es tok,
        sources w !! id = Some es -> readyState es <> CLOSED ->
        wiring es = SessionHandlers tok -> eventType ∈ eventTypes es ->
        run_op E (transport id (ev_named eventType data)) w = Throw SyntaxError w
        /\ step E (transport id (ev_named eventType data)) w
           = with_trace (trace w ++ [uncaught SyntaxError]) w)
  /\ (forall data' d,
        JSON_parse E data' = Some d -> eventType <> "connected" ->
        named_listener E eventType data'
          (with_trace (trace w ++ [uncaught SyntaxError]) w)
        = Normal (with_trace (trace w ++ [uncaught SyntaxError]
                              ++ calls d (registered eventType w)) w)).
Proof.
  intros Hin Hhb Hbad.
  assert (Hthrow : named_listener E eventType data w = Throw SyntaxError w).
  { unfold named_listener, JSON_parse_then.
    destruct (String.eqb eventType "connected"); [by rewrite Hbad|].
    destruct (String.eqb eventType "heartbeat") eqn:Heq.
    - apply String.eqb_eq in Heq. done.
    - by rewrite Hbad. }
  split; [exact Hthrow|]. split.
  { rewrite onmessage_eq. by rewrite Hbad. }
  split.
  - intros id es tok Hes Hlive Hwire Hty.
    assert (Hrun : run_op E (transport id (ev_named eventType data)) w
                   = Throw SyntaxError w).
    { destruct (subscribed_is_no_handler eventType Hin) as (Hm & Ho & He).
      destruct (readyState es =? CLOSED) eqn:Hc; [apply Z.eqb_eq in Hc; done|].
      simpl. rewrite (dispatch_named E id es tok) by done.
      by rewrite bool_decide_eq_true_2. }
    split; [exact Hrun|]. unfold step. by rewrite Hrun.
  - intros data' d Hok Hconn. unfold named_listener, JSON_parse_then.
    destruct (String.eqb eventType "connected") eqn:Heq1;
      [apply String.eqb_eq in Heq1; done|].
    destruct (String.eqb eventType "heartbeat") eqn:Heq2;
      [apply String.eqb_eq in Heq2; done|].
    rewrite Hok, emit_eq. unfold registered, with_trace; simpl.
    by rewrite <- app_assoc.
Qed.

(** C8, where the code departs from it. [testUrl] is a [const]: behind a
    tunnelling proxy the [+=] that appends the bypass flag throws inside
    the promise executor, so the promise [testConnection] returns is
    rejected with a [TypeError] instead of being resolved with a verdict.
    No handle is opened, no timeout is set and nothing is logged. *)
Theorem testConnection_rejects_behind_tunnel tok w :
  includes (API_BASE_URL E) "ngrok" = true ->
  testConnection E tok w
  = Normal (with_promises (promises w ++ [Rejected TypeError]) w)
  /\ promises (step E (call_testConnection tok) w) !! length (promises w)
     = Some (Rejected TypeError)
  /\ sources (step E (call_testConnection tok) w) = sources w
  /\ timers (step E (call_testConnection tok) w) = timers w
  /\ trace (step E (call_testConnection tok) w) = trace w
  /\ this (step E (call_testConnection tok) w) = this w.
Proof.
  intros Hngrok.
  assert (Hrun : testConnection E tok w
                 = Normal (with_promises (promises w ++ [Rejected TypeError]) w)).
  { unfold testConnection, testConnection_executor, seq, upd, try_catch, throw, reject.
    rewrite Hngrok. unfold upd. simpl.
    rewrite lookup_app_r, Nat.sub_diag by done. simpl.
    unfold with_promises; simpl. do 2 f_equal.
    rewrite insert_app_r_alt, Nat.sub_diag by done. done. }
  split; [exact Hrun|]. unfold step. simpl. rewrite Hrun. simpl.
  split; [|done]. by rewrite lookup_app_r, Nat.sub_diag.
Qed.

End Defects.

Lemma named_event_parse_failure_escapes_witness :
  let w := world_of (connect direct_env (Str "t") initial) in
  "notification" ∈ named_events
  /\ JSON_parse direct_env "{oops" = None
  /\ named_listener direct_env "notification" "{oops" w = Throw SyntaxError w
  /\ onmessage direct_env "{oops" w = Normal w
  /\ trace (step direct_env (transport 0%nat (ev_named "notification" "{oops")) w)
     = trace w ++ [uncaught SyntaxError].
Proof.
  intros w.
  assert (Hin : "notification" ∈ named_events)
    by (apply list_elem_of_In; vm_compute; tauto).
  assert (Hhb : "notification" <> "heartbeat") by discriminate.
  destruct (named_event_parse_failure_escapes direct_env "notification" "{oops" w
              Hin Hhb eq_refl) as (Hthrow & Hmsg & Hstep & _).
  split; [exact Hin|]. split; [reflexivity|]. split; [exact Hthrow|].
  split; [exact Hmsg|].
  assert (Hes : sources w !! 0%nat
                = Some {| url := stream_url direct_env (Str "t");
                          withCredentials := true; readyState := CONNECTING;
                          wiring := SessionHandlers (Str "t");
                          eventTypes := named_events |})
    by (vm_compute; reflexivity).
  destruct (Hstep 0%nat _ (Str "t") Hes) as [_ Hs];
    [vm_compute; discriminate | reflexivity | exact Hin |].
  rewrite Hs. reflexivity.
Defined.

Lemma testConnection_rejects_behind_tunnel_witness :
  includes (API_BASE_URL tunnel_env) "ngrok" = true
  /\ promises (step tunnel_env (call_testConnection (Str "t")) initial)
     = [Rejected TypeError]
  /\ sources (step tunnel_env (call_testConnection (Str "t")) initial) = [].
Proof.
  assert (Hngrok : includes (API_BASE_URL tunnel_env) "ngrok" = true)
    by (vm_compute; reflexivity).
  destruct (testConnection_rejects_behind_tunnel tunnel_env (Str "t") initial Hngrok)
    as (Hrun & _ & Hsrc & _).
  split; [exact Hngrok|]. split; [|exact Hsrc].
  unfold step. simpl run_op. rewrite Hrun. reflexivity.
Defined.

(** ** The connection probe on a direct origin *)

Section Probe.
Context (E : Env).

Lemma testConnection_direct tok w :
  includes (API_BASE_URL E) "ngrok" = false ->
  testConnection E tok w = Normal (probing E tok w).
Proof.
  intros Hdirect.
  unfold testConnection, testConnection_executor, seq, upd, try_catch, skip,
    EventSource_new, setTimeout, emits, seq, upd.
  rewrite Hdirect. simpl. unfold probing, with_timers, with_sources, with_trace; simpl.
  by rewrite <- app_assoc.
Qed.

(** On a direct origin the probe settles at the first of open, error and
    timeout: its promise is resolved with a verdict, its own handle is
    closed, its timeout is disarmed and the service object is untouched. *)
Lemma probe_resolves_on_direct_origin tok w o :
  includes (API_BASE_URL E) "ngrok" = false ->
  let id := length (sources w) in
  let p := length (promises w) in
  let t := length (timers w) in
  o = transport id ev_open
  \/ (exists fatal, o = transport id (ev_error fatal))
  \/ o = timer_fires t ->
  let w2 := step E o (step E (call_testConnection tok) w) in
  (exists v, promises w2 !! p = Some (Resolved v)
             /\ success v = match o with
                             | transport _ ev_open => true
                             | _ => false
                             end)
  /\ (readyState <$> sources w2 !! id) = Some CLOSED
  /\ (armed <$> timers w2 !! t) = Some false
  /\ this w2 = this w.
Proof.
  intros Hdirect id p t Ho w2.
  assert (Hstep : step E (call_testConnection tok) w = probing E tok w).
  { unfold step. simpl run_op. by rewrite testConnection_direct. }
  subst w2. rewrite Hstep. clear Hstep.
  set (P := fun w2 : World =>
              (exists v, promises w2 !! p = Some (Resolved v)
                         /\ success v = match o with
                                         | transport _ ev_open => true
                                         | _ => false
                                         end)
              /\ (readyState <$> sources w2 !! id) = Some CLOSED
              /\ (armed <$> timers w2 !! t) = Some false
              /\ this w2 = this w).
  change (P (step E o (probing E tok w))).
  assert (Hsrc : sources (probing E tok w) !! id
                 = Some {| url := test_url E tok; withCredentials := true;
                           readyState := CONNECTING; wiring := ProbeHandlers p t;
                           eventTypes := [] |}).
  { unfold probing; simpl. by rewrite lookup_app_r, Nat.sub_diag. }
  assert (Htm : timers (probing E tok w) !! t
                = Some {| delay := 10000; action := probe_timeout id p;
                          armed := true |}).
  { unfold probing; simpl. by rewrite lookup_app_r, Nat.sub_diag. }
  assert (Hfin : forall v src tm tr,
            (readyState <$> src !! id) = Some CLOSED ->
            (armed <$> tm !! t) = Some false ->
            success v = match o with
                        | transport _ ev_open => true
                        | _ => false
                        end ->
            P {| this := this w; sources := src; timers := tm; awaits := awaits w;
                 promises := <[p := Resolved v]> (promises w ++ [Pending]);
                 trace := tr |}).
  { intros v src tm tr Hs Ht Hv. unfold P; simpl. split; [|done].
    exists v. split; [|done].
    rewrite insert_app_r_alt, Nat.sub_diag by done. simpl.
    by rewrite lookup_app_r, Nat.sub_diag. }
  assert (Hpend : (promises w ++ [Pending]) !! p = Some Pending)
    by by rewrite lookup_app_r, Nat.sub_diag.
  clearbody P.
  destruct Ho as [->|[[fatal ->]| ->]]; unfold step; simpl run_op.
  - unfold dispatch. rewrite Hsrc. simpl.
    unfold seq, set_readyState, probe_onopen, clearTimeout, close, emits, resolve,
      seq, upd. simpl. rewrite Hpend. apply Hfin; [| |done].
    + simpl. rewrite !list_lookup_alter_eq. fold id. unfold probing in Hsrc; simpl in Hsrc.
      by rewrite Hsrc.
    + simpl. rewrite list_lookup_alter_eq. fold t. unfold probing in Htm; simpl in Htm.
      by rewrite Htm.
  - unfold dispatch. rewrite Hsrc. simpl.
    unfold seq, set_readyState, probe_onerror, clearTimeout, close, emits, resolve,
      seq, upd. simpl. rewrite Hpend. apply Hfin; [| |done].
    + simpl. rewrite !list_lookup_alter_eq. fold id. unfold probing in Hsrc; simpl in Hsrc.
      by rewrite Hsrc.
    + simpl. rewrite list_lookup_alter_eq. fold t. unfold probing in Htm; simpl in Htm.
      by rewrite Htm.
  - unfold fire. rewrite Htm. simpl.
    unfold seq, probe_ontimeout, clearTimeout, close, set_readyState, emits, resolve,
      seq, upd. simpl. rewrite Hpend. apply Hfin; [| |done].
    + simpl. rewrite !list_lookup_alter_eq. fold id. unfold probing in Hsrc; simpl in Hsrc.
      by rewrite Hsrc.
    + simpl. rewrite list_lookup_alter_eq. fold t. unfold probing in Htm; simpl in Htm.
      by rewrite Htm.
Qed.

End Probe.

(** ** The two registries: removal, round trips and frames *)

Section Registries.
Context (E : Env).

Lemma indexOf_None_iff l cb : indexOf l cb = None <-> cb ∉ l.
Proof.
  induction l as [|x l IH]; simpl.
  - split; [intros _; apply not_elem_of_nil|done].
  - destruct (decide (x = cb)) as [->|Hne].
    + split; [done|]. intros Hn. destruct Hn. apply list_elem_of_here.
    + rewrite not_elem_of_cons. destruct (indexOf l cb); simpl.
      * split; [done|]. intros [_ Hn]. by apply IH in Hn.
      * split; [|done]. intros _. split; [congruence|by apply IH].
Qed.

Lemma remove_first_fresh cb l : cb ∉ l -> remove_first cb l = l.
Proof. intros Hn. by apply indexOf_None, indexOf_None_iff. Qed.

Lemma remove_first_app_fresh cb l : cb ∉ l -> remove_first cb (l ++ [cb]) = l.
Proof.
  induction l as [|x l IH]; intros Hn; simpl.
  - by rewrite decide_True.
  - apply not_elem_of_cons in Hn as [Hne Hn].
    rewrite decide_False by congruence. by rewrite IH.
Qed.

Lemma remove_first_app_old cb l l' :
  cb ∈ l -> remove_first cb (l ++ l') = remove_first cb l ++ l'.
Proof.
  induction l as [|x l IH]; intros Hin; simpl.
  - by apply elem_of_nil in Hin.
  - destruct (decide (x = cb)); [done|].
    apply elem_of_cons in Hin as [->|Hin]; [done|]. by rewrite IH.
Qed.

Lemma offConnectionChange_eq cb w :
  offConnectionChange cb w
  = Normal (with_this (with_connectionListeners
              (remove_first cb (connectionListeners (this w)))) w).
Proof.
  unfold offConnectionChange.
  destruct (indexOf (connectionListeners (this w)) cb) as [i|] eqn:Hi.
  - unfold upd. by rewrite (splice_indexOf _ _ _ Hi).
  - rewrite (indexOf_None _ _ Hi). unfold skip.
    by destruct w as [[] ? ? ? ? ?].
Qed.

(** X1. The status broadcast calls every connection listener once per
    registration, oldest first, whatever any of them does, and completes
    normally; a listener added with [onConnectionChange] is called after
    all earlier ones at the next [disconnect()]. *)
Theorem status_broadcast_reaches_every_listener status cb w :
  notifyConnectionListeners E status w
  = Normal (with_trace (trace w ++ calls (JStr status) (connectionListeners (this w))) w)
  /\ (forall cb',
        count_invocations cb' (calls (JStr status) (connectionListeners (this w)))
        = occurrences cb' (connectionListeners (this w)))
  /\ trace (step E call_disconnect (step E (call_onConnectionChange cb) w))
     = trace w
       ++ match eventSource (this w) with
          | Some id => [close_EventSource id]
          | None => []
          end
       ++ calls (JStr "disconnected") (connectionListeners (this w))
       ++ [invoke cb (JStr "disconnected")].
Proof.
  split; [apply notifyConnectionListeners_eq|]. split.
  - intros cb'. apply count_invocations_calls.
  - unfold step. simpl run_op. unfold onConnectionChange, upd.
    rewrite disconnect_eq. unfold disconnected; simpl.
    unfold calls. by rewrite fmap_app.
Qed.

(** X2. [offConnectionChange] removes the oldest registration of the
    callback and nothing else. For a callback that is not registered it
    changes nothing; [onConnectionChange] followed by
    [offConnectionChange] of a callback that was not registered restores
    the world, and of one that was registered it removes the older
    registration, so the callback ends up last. *)
Theorem offConnectionChange_removes_oldest cb w :
  offConnectionChange cb w
  = Normal (with_this (with_connectionListeners
              (remove_first cb (connectionListeners (this w)))) w)
  /\ (cb ∉ connectionListeners (this w) ->
        offConnectionChange cb w = Normal w
        /\ step E (call_offConnectionChange cb) (step E (call_onConnectionChange cb) w) = w)
  /\ (cb ∈ connectionListeners (this w) ->
        connectionListeners
          (this (step E (call_offConnectionChange cb)
                   (step E (call_onConnectionChange cb) w)))
        = remove_first cb (connectionListeners (this w)) ++ [cb]).
Proof.
  split; [apply offConnectionChange_eq|]. split.
  - intros Hn. split.
    + rewrite offConnectionChange_eq, remove_first_fresh by done.
      by destruct w as [[] ? ? ? ? ?].
    + unfold step. simpl run_op. unfold onConnectionChange, upd.
      rewrite offConnectionChange_eq. simpl.
      rewrite remove_first_app_fresh by done. by destruct w as [[] ? ? ? ? ?].
  - intros Hin. unfold step. simpl run_op. unfold onConnectionChange, upd.
    rewrite offConnectionChange_eq. simpl. by apply remove_first_app_old.
Qed.

(** X3. [off] for an event that has no entry, or for a callback that is
    not registered under it, changes nothing at all. *)
Theorem off_unregistered_is_noop event cb w :
  cb ∉ registered event w ->
  off event cb w = Normal w
  /\ step E (call_off event cb) w = w.
Proof.
  intros Hn.
  assert (Hoff : off event cb w = Normal w).
  { unfold off, registered in *.
    destruct (listeners (this w) !! event) as [l|]; [|done]. simpl in Hn.
    apply indexOf_None_iff in Hn. by rewrite Hn. }
  split; [exact Hoff|]. unfold step. simpl run_op. by rewrite Hoff.
Qed.

(** X4. [on] followed by [off] of a callback that was not registered for
    the event leaves the registrations of every event as they were, so
    every later [emit] makes the same calls; only the entry of the event
    stays in the map, with whatever list it had or an empty one. Nothing
    outside the registry changes. *)
Theorem on_off_round_trip event cb w :
  cb ∉ registered event w ->
  let w' := step E (call_off event cb) (step E (call_on event cb) w) in
  (forall e', registered e' w' = registered e' w)
  /\ (forall e' data, emit E e' data w'
                      = Normal (with_trace (trace w' ++ calls data (registered e' w)) w'))
  /\ listeners (this w') !! event = Some (registered event w)
  /\ with_this (with_listeners (listeners (this w))) w' = w.
Proof.
  intros Hn w'.
  destruct (on_spec event cb w) as (w1 & Hon & Hreg1 & Hoth1 & _).
  assert (Hw1 : step E (call_on event cb) w = w1)
    by (unfold step; simpl run_op; by rewrite Hon).
  assert (Hw' : w' = with_this (with_listeners
                       (<[event := registered event w]> (listeners (this w1)))) w1).
  { unfold w'. rewrite Hw1. unfold step. simpl run_op. unfold off.
    assert (Hl : listeners (this w1) !! event = Some (registered event w ++ [cb])).
    { rewrite on_eq in Hon. injection Hon as <-. simpl. by rewrite lookup_insert_eq. }
    rewrite Hl.
    assert (Hidx : exists i, indexOf (registered event w ++ [cb]) cb = Some i).
    { destruct (indexOf (registered event w ++ [cb]) cb) eqn:Hi; [eauto|].
      apply indexOf_None_iff in Hi. destruct Hi. apply elem_of_app. right.
      apply list_elem_of_here. }
    destruct Hidx as [i Hi]. rewrite Hi. unfold upd.
    by rewrite (splice_indexOf _ _ _ Hi), remove_first_app_fresh. }
  assert (Hregs : forall e', registered e' w' = registered e' w).
  { intros e'. rewrite Hw'. unfold registered at 1; simpl.
    destruct (decide (e' = event)) as [->|Hne].
    - by rewrite lookup_insert_eq.
    - rewrite lookup_insert_ne by done. by apply Hoth1. }
  split; [exact Hregs|]. split.
  { intros e' data. by rewrite emit_eq, Hregs. }
  split.
  { rewrite Hw'. simpl. by rewrite lookup_insert_eq. }
  rewrite Hw'. rewrite on_eq in Hon. injection Hon as <-.
  by destruct w as [[] ? ? ? ? ?].
Qed.

End Registries.

(** ** The life cycle seen from outside *)

Section Outside.
Context (E : Env).

(** X5. [disconnect()] is idempotent: a second call leaves the service
    object, the handles and the timers as the first left them and only
    repeats the [disconnected] notification; on a service that holds no
    handle it closes nothing. *)
Theorem disconnect_twice w :
  let w1 := step E call_disconnect w in
  let w2 := step E call_disconnect w1 in
  this w2 = this w1
  /\ sources w2 = sources w1
  /\ timers w2 = timers w1
  /\ awaits w2 = awaits w1
  /\ promises w2 = promises w1
  /\ trace w2 = trace w1 ++ calls (JStr "disconnected") (connectionListeners (this w))
  /\ eventSource (this w1) = None
  /\ isConnected (this w1) = false
  /\ shouldReconnect (this w1) = false.
Proof.
  intros w1 w2. unfold w2, w1. rewrite !step_disconnect.
  unfold disconnected; simpl. split_and!; done.
Qed.

(** X6. What [getConnectionStatus] reports along a connection: after
    [connect] with a token the handle is [CONNECTING] on the stream URL and
    the service is not yet connected unless it was and held no handle; once
    the browser reports the open it is connected with the counter at 0 and
    the handle [OPEN]; after [disconnect()] it reports no handle, no URL,
    not connected and auto-reconnect off, the counter being left alone. *)
Theorem status_along_a_connection tok w :
  truthy tok = true ->
  let w1 := step E (call_connect tok) w in
  let w2 := step E (transport (length (sources w)) ev_open) w1 in
  let w3 := step E call_disconnect w2 in
  getConnectionStatus w1
  = (isConnected (this (released w)), reconnectAttempts (this w),
     shouldReconnect (this (released w)), Some CONNECTING, Some (stream_url E tok))
  /\ getConnectionStatus w2
     = (true, 0, shouldReconnect (this (released w)), Some OPEN, Some (stream_url E tok))
  /\ getConnectionStatus w3 = (false, 0, false, None, None).
Proof.
  intros Htok w1 w2 w3.
  assert (Hlen : length (sources (released w)) = length (sources w))
    by apply length_sources_released.
  assert (Hw1 : w1 = opened E tok (released w)).
  { unfold w1. by rewrite step_connect, Htok. }
  assert (Hatt : reconnectAttempts (this (released w)) = reconnectAttempts (this w)).
  { unfold released, disconnected. by destruct (eventSource (this w)). }
  assert (Hsrc1 : sources w1 !! length (sources w)
                  = Some {| url := stream_url E tok; withCredentials := true;
                            readyState := CONNECTING; wiring := SessionHandlers tok;
                            eventTypes := named_events |}).
  { rewrite Hw1, sources_opened, <- Hlen. by rewrite lookup_app_r, Nat.sub_diag. }
  assert (Hcur1 : eventSource (this w1) = Some (length (sources w))).
  { by rewrite Hw1, eventSource_opened, Hlen. }
  assert (Hw2 : this w2 = with_reconnectAttempts 0 (with_isConnected true (this w1))
                /\ sources w2 = alter (with_readyState OPEN) (length (sources w)) (sources w1)).
  { unfold w2, step. simpl run_op. unfold dispatch. rewrite Hsrc1. simpl.
    unfold seq, set_readyState, upd. rewrite onopen_eq. done. }
  destruct Hw2 as [Hthis2 Hsrc2].
  split.
  { unfold getConnectionStatus. rewrite Hcur1. simpl. rewrite Hsrc1. simpl.
    rewrite Hw1. simpl. by rewrite Hatt. }
  split.
  { unfold getConnectionStatus. rewrite Hthis2, Hsrc2. simpl. rewrite Hcur1. simpl.
    rewrite list_lookup_alter_eq, Hsrc1. simpl. by rewrite Hw1. }
  unfold w3. rewrite step_disconnect. unfold getConnectionStatus, disconnected; simpl.
  by rewrite Hthis2.
Qed.

(** X7. A transport error that leaves the handle reconnecting on its own
    (ready state not 2) is only reported: the service is marked
    disconnected and every connection listener is told [disconnected], but
    no timer is set, the refresh hook is not called, the attempt counter
    and the handle are kept, whatever the auto-reconnect flag says. *)
Theorem transient_error_is_only_reported id es tok w :
  sources w !! id = Some es ->
  readyState es <> CLOSED ->
  wiring es = SessionHandlers tok ->
  eventSource (this w) = Some id ->
  let w' := step E (transport id (ev_error false)) w in
  this w' = with_isConnected false (this w)
  /\ sources w' = alter (with_readyState CONNECTING) id (sources w)
  /\ timers w' = timers w
  /\ awaits w' = awaits w
  /\ trace w'
     = trace w
       ++ console_error ["SSE: Connection error"]
          :: calls (JStr "disconnected") (connectionListeners (this w)).
Proof.
  intros Hes Hlive Hwire Hcur w'. unfold w', step. simpl run_op.
  unfold dispatch. rewrite Hes.
  destruct (readyState es =? CLOSED) eqn:Hc; [apply Z.eqb_eq in Hc; done|].
  rewrite Hwire.
  unfold seq at 1. unfold set_readyState at 1, upd at 1.
  unfold onerror, seq, this_readyState. simpl. rewrite Hcur.
  rewrite list_lookup_alter_eq, Hes. simpl.
  unfold emits, upd. rewrite notifyConnectionListeners_eq. simpl.
  rewrite Hcur, list_lookup_alter_eq, Hes. simpl.
  split_and!; try done. by rewrite <- app_assoc.
Qed.

(** the handle [connect] has just opened *)
Lemma connected_handle tok w :
  truthy tok = true ->
  sources (step E (call_connect tok) w) !! length (sources w)
  = Some {| url := stream_url E tok; withCredentials := true;
            readyState := CONNECTING; wiring := SessionHandlers tok;
            eventTypes := named_events |}.
Proof.
  intros Htok. rewrite step_connect, Htok, sources_opened.
  rewrite <- (length_sources_released w). by rewrite lookup_app_r, Nat.sub_diag.
Qed.

(** X8. On the handle [connect] opened, a [heartbeat] event changes
    nothing whatever its payload, a [connected] event with a payload that
    parses changes nothing either, and an event whose type is neither one
    of the twenty subscribed nor the type of a handler property,
    [message], [open] or [error], has no listener and is dropped. *)
Theorem inert_named_events tok data eventType w :
  truthy tok = true ->
  let w1 := step E (call_connect tok) w in
  let id := length (sources w) in
  step E (transport id (ev_named "heartbeat" data)) w1 = w1
  /\ (is_Some (JSON_parse E data) ->
        step E (transport id (ev_named "connected" data)) w1 = w1)
  /\ (eventType ∉ named_events ->
        eventType <> "message" -> eventType <> "open" -> eventType <> "error" ->
        step E (transport id (ev_named eventType data)) w1 = w1).
Proof.
  intros Htok w1 id.
  pose proof (connected_handle tok w Htok) as Hsrc. fold w1 id in Hsrc.
  split; [|split].
  - unfold step. simpl run_op.
    rewrite (dispatch_named E id _ tok _ _ _ Hsrc) by done. by simpl.
  - intros [d Hd]. unfold step. simpl run_op.
    rewrite (dispatch_named E id _ tok _ _ _ Hsrc) by done. simpl.
    unfold named_listener, JSON_parse_then. simpl. by rewrite Hd.
  - intros Hn Hm Ho He. unfold step. simpl run_op.
    rewrite (dispatch_named E id _ tok _ _ _ Hsrc) by done. simpl.
    by rewrite bool_decide_eq_false_2.
Qed.

(** X9. On the handle [connect] opened, each of the eighteen forwarded
    event types, delivered with a payload that parses, is re-emitted under
    the same name: the callbacks registered for that name are called with
    the parsed value, oldest first, and nothing else changes. *)
Theorem named_event_is_forwarded_under_its_name tok eventType data d w :
  truthy tok = true ->
  eventType ∈ named_events ->
  eventType <> "connected" ->
  eventType <> "heartbeat" ->
  JSON_parse E data = Some d ->
  let w1 := step E (call_connect tok) w in
  step E (transport (length (sources w)) (ev_named eventType data)) w1
  = with_trace (trace w1 ++ calls d (registered eventType w1)) w1.
Proof.
  intros Htok Hin Hc Hh Hd w1.
  pose proof (connected_handle tok w Htok) as Hsrc. fold w1 in Hsrc.
  destruct (subscribed_is_no_handler eventType Hin) as (Hm & Ho & He).
  unfold step. simpl run_op.
  rewrite (dispatch_named E _ _ tok _ _ _ Hsrc) by done. simpl.
  rewrite bool_decide_eq_true_2 by done.
  unfold named_listener, JSON_parse_then.
  destruct (String.eqb eventType "connected") eqn:H1; [by apply String.eqb_eq in H1|].
  destruct (String.eqb eventType "heartbeat") eqn:H2; [by apply String.eqb_eq in H2|].
  by rewrite Hd, emit_eq.
Qed.

(** X10. A message without an event type is parsed and fanned out under
    the name [message]; when its payload does not parse it is dropped and
    the world is exactly as before, nothing being thrown or reported. *)
Theorem generic_message_is_forwarded_or_dropped tok data w :
  truthy tok = true ->
  let w1 := step E (call_connect tok) w in
  step E (transport (length (sources w)) (ev_message data)) w1
  = match JSON_parse E data with
    | Some d => with_trace (trace w1 ++ calls d (registered "message" w1)) w1
    | None => w1
    end.
Proof.
  intros Htok w1.
  pose proof (connected_handle tok w Htok) as Hsrc. fold w1 in Hsrc.
  unfold step. simpl run_op. unfold dispatch. rewrite Hsrc. simpl.
  by rewrite onmessage_eq.
Qed.

(** a list of handles with at most one live one, which is then [c] *)
Lemma live_from_at_most_one l i c :
  (forall j es, l !! j = Some es -> of_session es = true -> live es = true ->
                (i + j)%nat = c) ->
  live_from i l = [] \/ live_from i l = [c].
Proof.
  revert i. induction l as [|es l IH]; intros i H; simpl; [by left|].
  destruct (of_session es && live es) eqn:Hes.
  - apply andb_true_iff in Hes as [Hs Hl].
    assert (Hic : i = c) by (rewrite <- (H 0%nat es eq_refl Hs Hl); lia).
    right. f_equal; [done|].
    destruct l as [|es' l']; [done|].
    destruct (IH (S i)) as [Hn|Hone].
    { intros j es2 Hj. specialize (H (S j) es2 Hj). intros. rewrite <- H by done. lia. }
    + done.
    + exfalso.
      assert (Hex : exists j es2, (es' :: l') !! j = Some es2
                        /\ of_session es2 = true /\ live es2 = true).
      { clear -Hone. revert Hone. generalize (S i). generalize (es' :: l').
        induction l as [|x l IHl]; intros n Hone; simpl in Hone; [done|].
        destruct (of_session x && live x) eqn:Hx.
        - apply andb_true_iff in Hx as [? ?]. exists 0%nat, x. done.
        - destruct (IHl _ Hone) as (j & es2 & ? & ? & ?).
          exists (S j), es2. done. }
      destruct Hex as (j & es2 & Hj & Hs2 & Hl2).
      specialize (H (S j) es2 Hj Hs2 Hl2). lia.
  - apply IH. intros j es2 Hj Hs Hl.
    specialize (H (S j) es2 Hj Hs Hl). lia.
Qed.

(** X11. Whatever calls and browser events a new service object goes
    through, at most one of the handles it opened is live at any time, and
    that one is the handle it holds. *)
Theorem at_most_one_live_handle ops :
  let w := run E ops initial in
  live_session_handles w = []
  \/ exists id, eventSource (this w) = Some id /\ live_session_handles w = [id].
Proof.
  intros w. pose proof (reachable_wf E ops) as Hwf. fold w in Hwf.
  destruct (eventSource (this w)) as [id|] eqn:Hcur.
  - destruct (live_from_at_most_one (sources w) 0 id) as [Hn|Hone].
    + intros j es Hj Hs Hl. unfold wf in Hwf. rewrite Hcur in Hwf.
      specialize (Hwf j es Hj Hs Hl). by injection Hwf as ->.
    + by left.
    + right. by exists id.
  - left. unfold wf in Hwf. rewrite Hcur in Hwf.
    apply wf_on_None_quiet in Hwf.
    unfold live_session_handles. revert Hwf. generalize 0%nat. generalize (sources w).
    induction l as [|es l IH]; intros n Hq; simpl; [done|].
    apply quiet_cons_inv in Hq as [-> Hq]. by apply IH.
Qed.

End Outside.

(** ** The probe and the refresh hook beside the primary session *)

Section Beside.
Context (E : Env).

Lemma testConnection_tunnel tok w :
  includes (API_BASE_URL E) "ngrok" = true ->
  testConnection E tok w
  = Normal (with_promises (promises w ++ [Rejected TypeError]) w).
Proof.
  intros Hngrok.
  unfold testConnection, testConnection_executor, seq, upd, try_catch, throw, reject.
  rewrite Hngrok. unfold upd. simpl.
  rewrite lookup_app_r, Nat.sub_diag by done. simpl.
  unfold with_promises; simpl. do 2 f_equal.
  by rewrite insert_app_r_alt, Nat.sub_diag.
Qed.

(** X12. On a base URL without [ngrok] the probe settles exactly once.
    [testConnection] arms one timeout of 10000 ms for its handle; the
    first of open, error and that timeout resolves the promise with a
    verdict, successful only for the open, closes the handle and leaves
    the service object untouched; whatever the browser delivers on the
    handle afterwards, and the timeout, change nothing, so the verdict
    stands. *)
Theorem probe_settles_once tok w o o' :
  includes (API_BASE_URL E) "ngrok" = false ->
  let id := length (sources w) in
  let p := length (promises w) in
  let t := length (timers w) in
  (o = transport id ev_open \/ (exists fatal, o = transport id (ev_error fatal))
   \/ o = timer_fires t) ->
  ((exists ev, o' = transport id ev) \/ o' = timer_fires t) ->
  let w1 := step E (call_testConnection tok) w in
  let w2 := step E o w1 in
  timers w1 = timers w ++ [{| delay := 10000; action := probe_timeout id p;
                              armed := true |}]
  /\ (exists v, promises w2 !! p = Some (Resolved v)
                /\ success v = match o with
                                | transport _ ev_open => true
                                | _ => false
                                end)
  /\ (readyState <$> sources w2 !! id) = Some CLOSED
  /\ this w2 = this w
  /\ step E o' w2 = w2.
Proof.
  intros Hdirect id p t Ho Ho' w1 w2.
  destruct (probe_resolves_on_direct_origin E tok w o Hdirect Ho)
    as (Hv & Hclosed & Hdis & Hthis).
  fold id p t w1 w2 in Hv, Hclosed, Hdis.
  split.
  { unfold w1, step. simpl run_op. by rewrite testConnection_direct. }
  split; [exact Hv|]. split; [exact Hclosed|]. split; [exact Hthis|].
  destruct (sources w2 !! id) as [es|] eqn:Hes; [|done].
  destruct (timers w2 !! t) as [tm|] eqn:Htm; [|done].
  simpl in Hclosed, Hdis. injection Hclosed as Hc. injection Hdis as Ha.
  destruct Ho' as [[ev ->]| ->]; unfold step; simpl run_op.
  - unfold dispatch. by rewrite Hes, Hc.
  - unfold fire. by rewrite Htm, Ha.
Qed.

(** X13. The probe works beside the primary session: [testConnection]
    itself, every event on a handle it opened and its timeout leave the
    service object and the suspended refresh untouched, and touch no
    handle but the probe's own. *)
Theorem probe_never_touches_the_session tok id ev es p t w :
  this (step E (call_testConnection tok) w) = this w
  /\ awaits (step E (call_testConnection tok) w) = awaits w
  /\ (forall j, (j < length (sources w))%nat ->
        sources (step E (call_testConnection tok) w) !! j = sources w !! j)
  /\ (sources w !! id = Some es -> wiring es = ProbeHandlers p t ->
        this (step E (transport id ev) w) = this w
        /\ awaits (step E (transport id ev) w) = awaits w
        /\ forall j, j <> id -> sources (step E (transport id ev) w) !! j = sources w !! j)
  /\ (forall i tm p' id',
        timers w !! i = Some tm -> action tm = probe_timeout id' p' ->
        this (step E (timer_fires i) w) = this w
        /\ awaits (step E (timer_fires i) w) = awaits w
        /\ forall j, j <> id' -> sources (step E (timer_fires i) w) !! j = sources w !! j).
Proof.
  assert (Htest : this (step E (call_testConnection tok) w) = this w
                  /\ awaits (step E (call_testConnection tok) w) = awaits w
                  /\ forall j, (j < length (sources w))%nat ->
                       sources (step E (call_testConnection tok) w) !! j = sources w !! j).
  { destruct (includes (API_BASE_URL E) "ngrok") eqn:Hng.
    - unfold step. simpl run_op. by rewrite testConnection_tunnel.
    - unfold step. simpl run_op. rewrite testConnection_direct by done.
      unfold probing; simpl. split_and!; try done.
      intros j Hj. by rewrite lookup_app_l. }
  destruct Htest as (H1 & H2 & H3).
  split; [exact H1|]. split; [exact H2|]. split; [exact H3|]. split.
  - intros Hes Hwire. unfold step. simpl run_op. unfold dispatch. rewrite Hes.
    destruct (readyState es =? CLOSED); [done|]. rewrite Hwire.
    destruct ev as [|data|ty data|fatal]; simpl; try done.
    2: unfold probe_handler; destruct (String.eqb ty "open");
         [|destruct (String.eqb ty "error"); [|done]].
    all: unfold seq, set_readyState, probe_onopen, probe_onerror, clearTimeout, close,
           emits, resolve, seq, upd; simpl.
    all: destruct (promises w !! p) as [[]|]; simpl; split_and!; try done;
           intros j Hj; by rewrite !list_lookup_alter_ne.
  - intros i tm p' id' Htm Hact. unfold step. simpl run_op. unfold fire. rewrite Htm.
    destruct (armed tm); [|done]. rewrite Hact.
    unfold seq, clearTimeout, timer_callback, probe_ontimeout, close, set_readyState,
      emits, resolve, seq, upd; simpl.
    destruct (promises w !! p') as [[]|]; simpl; split_and!; try done;
      intros j Hj; by rewrite !list_lookup_alter_ne.
Qed.

(** X14. [disconnect()] does not cancel a token refresh in flight. With
    the hook awaited after a first fatal error, a [disconnect()] issued
    before the hook settles switches auto-reconnect off and clears the
    handle; when the hook then returns a new token, the suspended handler
    still calls [connect] with it, and the service ends up holding a fresh
    handle on the URL of the new token, auto-reconnect off. *)
Theorem refresh_in_flight_survives_disconnect id es tok h newToken w :
  sources w !! id = Some es ->
  readyState es <> CLOSED ->
  wiring es = SessionHandlers tok ->
  eventSource (this w) = Some id ->
  shouldReconnect (this w) = true ->
  reconnectAttempts (this w) = 0 ->
  tokenRefreshCallback (this w) = Some h ->
  truthy newToken = true ->
  newToken <> lastToken (this w) ->
  let w1 := step E (transport id (ev_error true)) w in
  let w2 := step E call_disconnect w1 in
  let w3 := step E (hook_settles (length (awaits w)) (hook_returns newToken)) w2 in
  eventSource (this w2) = None
  /\ shouldReconnect (this w2) = false
  /\ eventSource (this w3) = Some (length (sources w))
  /\ sources w3 !! length (sources w)
     = Some {| url := stream_url E newToken; withCredentials := true;
               readyState := CONNECTING; wiring := SessionHandlers newToken;
               eventTypes := named_events |}
  /\ lastToken (this w3) = newToken
  /\ shouldReconnect (this w3) = false.
Proof.
  intros Hes Hlive Hwire Hcur Hflag Hzero Hhook Htruthy Hnew w1 w2 w3.
  assert (Hc : (readyState es =? CLOSED) = false) by by apply Z.eqb_neq.
  assert (Hw1 : this w1 = with_isConnected false (this w)
                /\ awaits w1 = awaits w ++ [{| k_token := tok; k_waiting := true |}]
                /\ sources w1 = alter (with_readyState CLOSED) id (sources w)).
  { unfold w1, step. simpl run_op. unfold dispatch. rewrite Hes, Hc, Hwire.
    unfold seq at 1. unfold set_readyState at 1, upd at 1.
    unfold onerror, seq, this_readyState. simpl. rewrite Hcur.
    rewrite list_lookup_alter_eq, Hes. simpl.
    unfold emits, upd. rewrite notifyConnectionListeners_eq. simpl.
    rewrite Hcur, list_lookup_alter_eq, Hes. simpl. rewrite Hflag, Hhook, Hzero.
    simpl. done. }
  destruct Hw1 as (Hthis1 & Haw1 & Hsrc1).
  assert (Hw2 : this w2 = with_isConnected false
                            (with_eventSource None (with_shouldReconnect false (this w1)))
                /\ awaits w2 = awaits w1
                /\ length (sources w2) = length (sources w)).
  { unfold w2. rewrite step_disconnect. unfold disconnected; simpl.
    split_and!; try done. rewrite Hthis1. simpl. rewrite Hcur.
    by rewrite length_alter, Hsrc1, length_alter. }
  destruct Hw2 as (Hthis2 & Haw2 & Hlen2).
  split; [by rewrite Hthis2|]. split; [by rewrite Hthis2|].
  assert (Hrel : forall X, this X = this w2 -> released X = X).
  { intros X HX. unfold released. by rewrite HX, Hthis2. }
  assert (Hw3 : exists X, w3 = opened E newToken X /\ this X = this w2
                          /\ sources X = sources w2).
  { unfold w3, step. simpl run_op. unfold settle.
    rewrite Haw2, Haw1, lookup_app_r, Nat.sub_diag by done. simpl.
    unfold seq, upd, onerror_resume. simpl. rewrite Htruthy.
    rewrite Hthis2, Hthis1. simpl.
    rewrite bool_decide_eq_false_2 by done. simpl.
    unfold seq, emits, upd. rewrite connect_truthy by done. simpl.
    rewrite Hrel by done. eexists. split; [reflexivity|]. simpl.
    by rewrite Hthis2, Hthis1. }
  destruct Hw3 as (X & -> & HthisX & HsrcX).
  rewrite eventSource_opened, sources_opened. simpl.
  rewrite HsrcX, Hlen2. split; [done|]. split.
  { rewrite <- Hlen2. by rewrite lookup_app_r, Nat.sub_diag. }
  split; [done|]. by rewrite HthisX, Hthis2.
Qed.

End Beside.

(** ** One automatic retry *)

Lemma retries_app l t :
  retries (l ++ [t]) = (retries l + (if is_retry t then 1 else 0))%nat.
Proof. induction l as [|x l IH]; simpl; [lia|]. rewrite IH. lia. Qed.

Lemma retries_disarm i l : retries (alter disarm i l) = retries l.
Proof.
  revert i. induction l as [|x l IH]; intros [|i]; simpl; try done.
  f_equal. apply IH.
Qed.

Lemma waiting_app l a :
  waiting (l ++ [a]) = (waiting l + (if k_waiting a then 1 else 0))%nat.
Proof. induction l as [|x l IH]; simpl; [lia|]. rewrite IH. lia. Qed.

Lemma waiting_settled k a tk l :
  l !! k = Some a -> k_waiting a = true ->
  S (waiting (<[k := {| k_token := tk; k_waiting := false |}]> l)) = waiting l.
Proof.
  revert k. induction l as [|x l IH]; intros [|k] Hk Ha; simpl in *; try done.
  - injection Hk as ->. by rewrite Ha.
  - rewrite <- (IH k Hk Ha). lia.
Qed.

Lemma current_live_readyState e id v src es :
  src !! id = Some es -> live es = true ->
  current_live e (alter (with_readyState v) id src) = true ->
  current_live e src = true.
Proof.
  intros Hes Hl. unfold current_live. destruct e as [j|]; [|done].
  destruct (decide (id = j)) as [->|Hne].
  - by rewrite Hes.
  - by rewrite list_lookup_alter_ne.
Qed.

Lemma current_live_push e src es :
  current_live e (src ++ [es]) = true -> e <> Some (length src) ->
  current_live e src = true.
Proof.
  unfold current_live. destruct e as [j|]; [|done]. intros H Hne.
  destruct (src !! j) as [es'|] eqn:Hj.
  - by rewrite (lookup_app_l_Some _ _ _ _ Hj) in H.
  - rewrite lookup_app_r in H by by apply lookup_ge_None.
    apply lookup_ge_None in Hj.
    destruct (decide (j = length src)) as [->|]; [done|].
    rewrite lookup_ge_None_2 in H; [done|]. simpl. lia.
Qed.

Lemma can_retry_off e src : can_retry false e src = 0%nat.
Proof. done. Qed.

Lemma can_retry_close f e j src :
  (can_retry f e (alter (with_readyState CLOSED) j src) <= can_retry f e src)%nat.
Proof.
  unfold can_retry, current_live. destruct f; [|done]. simpl.
  destruct e as [i|]; [|done].
  destruct (decide (j = i)) as [->|Hne].
  - rewrite list_lookup_alter_eq. destruct (src !! i); simpl; [|done].
    unfold live; simpl. destruct (negb _); lia.
  - by rewrite list_lookup_alter_ne.
Qed.

Lemma can_retry_readyState f e j v src es :
  src !! j = Some es -> (readyState es =? CLOSED) = false ->
  (can_retry f e (alter (with_readyState v) j src) <= can_retry f e src)%nat.
Proof.
  intros Hes Hl. unfold can_retry. destruct f; [|done]. simpl.
  destruct (current_live e (alter _ j src)) eqn:Hc; [|lia].
  rewrite (current_live_readyState e j v src es); [done|done| |done].
  unfold live. by rewrite Hl.
Qed.

Lemma can_retry_push f e src es :
  in_range e src -> can_retry f e (src ++ [es]) = can_retry f e src.
Proof.
  unfold can_retry, current_live, in_range. destruct f; [|done]. simpl.
  destruct e as [i|]; [|done]. intros Hi. by rewrite lookup_app_l.
Qed.

Lemma in_range_push e src es : in_range e src -> in_range e (src ++ [es]).
Proof. destruct e; simpl; [|done]. rewrite length_app. simpl. lia. Qed.

Lemma in_range_alter e src f i : in_range e src -> in_range e (alter f i src).
Proof. destruct e; simpl; [|done]. by rewrite length_alter. Qed.

Lemma can_retry_closed f n src es :
  src !! n = Some es -> (readyState es =? 2) = true -> can_retry f (Some n) src = 0%nat.
Proof.
  intros Hes Hc. unfold can_retry, current_live, live. rewrite Hes.
  change CLOSED with 2. rewrite Hc. by destruct f.
Qed.

Lemma can_retry_le_1 f e src : (can_retry f e src <= 1)%nat.
Proof. unfold can_retry. destruct (f && _); lia. Qed.

(** a world that kept the retry timers, and lost rather than gained
    waiting handlers, chances of a retry and attempts, is within budget *)
Lemma within_budget_mono w w' :
  within_budget w ->
  in_range (eventSource (this w')) (sources w') ->
  retries (timers w') = retries (timers w) ->
  (waiting (awaits w') <= waiting (awaits w))%nat ->
  (can_retry (shouldReconnect (this w')) (eventSource (this w')) (sources w')
   <= can_retry (shouldReconnect (this w)) (eventSource (this w)) (sources w))%nat ->
  0 <= reconnectAttempts (this w') <= reconnectAttempts (this w) ->
  within_budget w'.
Proof.
  intros (Hr & Hb & Ha) Hr' Ht Hw Hc Hatt. unfold within_budget, retry_budget in *.
  split; [done|]. split; lia.
Qed.

(** a change outside the six fields the budget reads *)
Lemma within_budget_frame w w' :
  within_budget w ->
  eventSource (this w') = eventSource (this w) ->
  shouldReconnect (this w') = shouldReconnect (this w) ->
  reconnectAttempts (this w') = reconnectAttempts (this w) ->
  sources w' = sources w ->
  timers w' = timers w ->
  awaits w' = awaits w ->
  within_budget w'.
Proof.
  intros H He Hf Ha Hs Ht Hw. apply (within_budget_mono w w' H).
  - rewrite He, Hs. apply H.
  - by rewrite Ht.
  - by rewrite Hw.
  - by rewrite He, Hf, Hs.
  - rewrite Ha. destruct H as (_ & _ & ?). lia.
Qed.

Lemma within_budget_released w : within_budget w -> within_budget (released w).
Proof.
  intros H. unfold released. destruct (eventSource (this w)) as [id|] eqn:Hcur; [|done].
  apply (within_budget_mono w _ H); unfold disconnected; simpl; try done.
  - rewrite can_retry_off. lia.
  - destruct H as (_ & _ & ?). lia.
Qed.

Lemma eventSource_released w : eventSource (this (released w)) = None.
Proof. unfold released. by destruct (eventSource (this w)) eqn:Hcur. Qed.

Lemma within_budget_opened E tok w :
  within_budget w -> eventSource (this w) = None -> within_budget (opened E tok w).
Proof.
  intros H Hcur. apply (within_budget_mono w _ H); unfold opened; simpl; try done.
  - rewrite length_app. simpl. lia.
  - rewrite Hcur. unfold can_retry, current_live.
    rewrite lookup_app_r, Nat.sub_diag by done. simpl. done.
  - destruct H as (_ & _ & ?). lia.
Qed.

(** with nothing left in the budget but room for one retry, the policy
    may be entered *)
Lemma within_budget_handleReconnect E tok w :
  in_range (eventSource (this w)) (sources w) ->
  retry_budget w = 0%nat ->
  0 <= reconnectAttempts (this w) <= Z.of_nat (retries (timers w)) ->
  within_budget
    match handleReconnect E tok w with
    | Normal w' => w'
    | Throw e w' => with_trace (trace w' ++ [uncaught e]) w'
    end.
Proof.
  intros Hr Hb Ha. rewrite handleReconnect_eq. unfold retry_budget in Hb.
  destruct (reconnectAttempts (this w) <? maxReconnectAttempts (this w)); simpl.
  - unfold within_budget, retry_budget, retry_scheduled; simpl.
    rewrite retries_app. simpl. split; [done|]. split; lia.
  - unfold within_budget, retry_budget, gave_up; simpl. split; [done|]. split; lia.
Qed.

Lemma within_budget_released_disconnected w :
  within_budget w -> within_budget (disconnected w).
Proof.
  intros H. apply (within_budget_mono w _ H); unfold disconnected; simpl; try done.
  - rewrite can_retry_off. lia.
  - destruct H as (_ & _ & ?). lia.
Qed.

Lemma off_frame event cb w :
  exists l, off event cb w = Normal (with_this (with_listeners l) w)
            \/ off event cb w = Normal w.
Proof.
  unfold off. destruct (listeners (this w) !! event) as [l|]; [|exists ∅; by right].
  destruct (indexOf l cb); [|exists ∅; by right].
  eexists. left. reflexivity.
Qed.

Section OneRetry.
Context (E : Env).

Lemma step_keeps_max o w :
  maxReconnectAttempts (this (step E o w)) = maxReconnectAttempts (this w).
Proof.
  set (P := fun w' : World => maxReconnectAttempts (this w') = maxReconnectAttempts (this w)).
  change (P (step E o w)). unfold step.
  destruct o as [tok| |cb|ev cb|ev cb|cb|cb|tok|id ev|i|k r];
    try destruct ev; try destruct r; exec_turn.
  all: subst P; simp_world; try done.
  all: unfold released, opened, disconnected, retry_scheduled, gave_up in *;
    repeat case_match; simpl; done.
Qed.

Lemma run_keeps_max ops :
  maxReconnectAttempts (this (run E ops initial)) = 5.
Proof.
  assert (H : forall w, maxReconnectAttempts (this (run E ops w))
                        = maxReconnectAttempts (this w)).
  { induction ops as [|o ops IH]; intros w; simpl; [done|].
    by rewrite IH, step_keeps_max. }
  by rewrite H.
Qed.

Lemma error_within_budget id es tok fatal w :
  wf w -> within_budget w ->
  sources w !! id = Some es -> readyState es <> CLOSED ->
  wiring es = SessionHandlers tok ->
  within_budget (step E (transport id (ev_error fatal)) w).
Proof.
  intros Hwf H Hes Hlive Hwire.
  assert (Hc : (readyState es =? CLOSED) = false) by by apply Z.eqb_neq.
  assert (Hcur : eventSource (this w) = Some id).
  { apply (Hwf id es Hes); [by unfold of_session; rewrite Hwire|].
    unfold live. by rewrite Hc. }
  assert (Hcan : can_retry (shouldReconnect (this w)) (eventSource (this w)) (sources w)
                 = if shouldReconnect (this w) then 1%nat else 0%nat).
  { unfold can_retry, current_live, live. rewrite Hcur, Hes, Hc. simpl.
    by rewrite andb_true_r. }
  destruct H as (Hr & Hb & Ha). unfold retry_budget in Hb. rewrite Hcan in Hb.
  unfold step. simpl run_op. unfold dispatch. rewrite Hes, Hc, Hwire.
  unfold seq at 1. unfold set_readyState at 1, upd at 1.
  unfold onerror, seq, this_readyState. simpl. rewrite Hcur.
  rewrite list_lookup_alter_eq, Hes. simpl.
  unfold emits, upd. rewrite notifyConnectionListeners_eq. simpl.
  rewrite Hcur, list_lookup_alter_eq, Hes. simpl.
  assert (Hclosed : forall f, can_retry f (Some id)
            (alter (with_readyState CLOSED) id (sources w)) = 0%nat).
  { intros f. unfold can_retry, current_live, live.
    rewrite list_lookup_alter_eq, Hes. simpl. by rewrite andb_false_r. }
  assert (Hrange : forall v, in_range (Some id) (alter (with_readyState v) id (sources w))).
  { intros v. simpl. rewrite length_alter. by apply lookup_lt_Some in Hes. }
  destruct fatal; simpl.
  - destruct (shouldReconnect (this w)) eqn:Hflag; simpl.
    + assert (Hzero : retries (timers w) = 0%nat /\ waiting (awaits w) = 0%nat) by lia.
      destruct Hzero as [Hr0 Hw0].
      destruct (tokenRefreshCallback (this w)) as [h|].
      * destruct (reconnectAttempts (this w) =? 0) eqn:H0; simpl.
        -- unfold within_budget, retry_budget; simpl.
           rewrite Hcur, Hflag, Hclosed, waiting_app. simpl.
           split; [apply Hrange|]. split; lia.
        -- apply within_budget_handleReconnect; simpl.
           ++ rewrite Hcur. apply Hrange.
           ++ unfold retry_budget; simpl. rewrite Hcur, Hflag, Hclosed. lia.
           ++ lia.
      * apply within_budget_handleReconnect; simpl.
        -- rewrite Hcur. apply Hrange.
        -- unfold retry_budget; simpl. rewrite Hcur, Hflag, Hclosed. lia.
        -- lia.
    + unfold within_budget, retry_budget; simpl.
      rewrite Hcur, Hflag, can_retry_off. split; [apply Hrange|]. split; lia.
  - unfold within_budget, retry_budget; simpl. rewrite Hcur.
    split; [apply Hrange|]. split; [|lia].
    pose proof (can_retry_le_1 (shouldReconnect (this w)) (Some id)
                  (alter (with_readyState CONNECTING) id (sources w))).
    destruct (shouldReconnect (this w)); [lia|].
    rewrite can_retry_off. lia.
Qed.

Lemma settle_within_budget k r w :
  within_budget w -> within_budget (step E (hook_settles k r) w).
Proof.
  intros H. unfold step. simpl run_op. unfold settle.
  destruct (awaits w !! k) as [a|] eqn:Hk; [|done].
  destruct (k_waiting a) eqn:Ha; [|done].
  unfold seq at 1, upd at 1.
  set (X := with_awaits (<[k := {| k_token := k_token a; k_waiting := false |}]> (awaits w)) w).
  assert (Hwait : S (waiting (awaits X)) = waiting (awaits w))
    by (apply waiting_settled with a; done).
  assert (HX : within_budget X).
  { apply (within_budget_mono w X H); try done; [apply H|lia|].
    destruct H as (_ & _ & ?). unfold X; simpl. lia. }
  assert (Hzero : retry_budget X = 0%nat).
  { destruct H as (_ & Hb & _). unfold retry_budget in *.
    change (timers X) with (timers w). change (this X) with (this w).
    change (sources X) with (sources w). lia. }
  assert (Hpolicy : forall X', this X' = this X -> sources X' = sources X ->
            timers X' = timers X -> awaits X' = awaits X ->
            within_budget
              match handleReconnect E (k_token a) X' with
              | Normal w' => w'
              | Throw e w' => with_trace (trace w' ++ [uncaught e]) w'
              end).
  { intros X' Hth Hs Ht Haw. apply within_budget_handleReconnect.
    - rewrite Hth, Hs. apply HX.
    - unfold retry_budget in *. by rewrite Hth, Hs, Ht, Haw.
    - rewrite Hth, Ht. apply HX. }
  clearbody X. unfold onerror_resume.
  destruct r as [newToken|].
  - destruct (truthy newToken && negb (bool_decide (newToken = lastToken (this X))))
      eqn:Hnew.
    + apply andb_true_iff in Hnew as [Htruthy _].
      unfold seq, emits, upd. rewrite connect_truthy by done.
      apply within_budget_opened; [|apply eventSource_released].
      apply within_budget_released. by apply (within_budget_frame X).
    + by apply Hpolicy.
  - unfold seq, emits, upd. by apply Hpolicy.
Qed.

Lemma connect_within_budget tok w :
  within_budget w -> within_budget (step E (call_connect tok) w).
Proof.
  intros H. rewrite step_connect. destruct (truthy tok).
  - apply within_budget_opened; [by apply within_budget_released|].
    apply eventSource_released.
  - apply (within_budget_frame (released w)); [by apply within_budget_released|done..].
Qed.

Lemma fire_within_budget i w :
  within_budget w -> within_budget (step E (timer_fires i) w).
Proof.
  intros H. unfold step. simpl run_op. unfold fire.
  destruct (timers w !! i) as [t|] eqn:Ht; [|done].
  destruct (armed t); [|done].
  unfold seq at 1, clearTimeout, upd.
  set (X := with_timers (alter disarm i (timers w)) w).
  assert (HX : within_budget X).
  { apply (within_budget_mono w X H); try done; [apply H|apply retries_disarm|].
    destruct H as (_ & _ & ?). unfold X; simpl. lia. }
  clearbody X. destruct (action t) as [tok|id p]; simpl.
  - destruct (shouldReconnect (this X)); [|done].
    pose proof (connect_within_budget tok X HX) as Hc.
    unfold step in Hc. exact Hc.
  - unfold probe_ontimeout, seq, close, emits, set_readyState, resolve, upd; simpl.
    apply (within_budget_mono X); try done.
    + destruct (promises X !! p) as [[]|]; simpl; apply in_range_alter, HX.
    + by destruct (promises X !! p) as [[]|].
    + by destruct (promises X !! p) as [[]|].
    + destruct (promises X !! p) as [[]|]; simpl; apply can_retry_close.
    + destruct HX as (_ & _ & ?).
      destruct (promises X !! p) as [[]|]; simpl; lia.
Qed.

Lemma dispatch_within_budget id ev w :
  wf w -> within_budget w -> within_budget (step E (transport id ev) w).
Proof.
  intros Hwf H.
  destruct (sources w !! id) as [es|] eqn:Hes;
    [|unfold step; simpl run_op; unfold dispatch; by rewrite Hes].
  destruct (readyState es =? CLOSED) eqn:Hc;
    [unfold step; simpl run_op; unfold dispatch; by rewrite Hes, Hc|].
  assert (Hlive : readyState es <> CLOSED) by by apply Z.eqb_neq.
  destruct (wiring es) as [tok|p t] eqn:Hwire.
  - destruct ev as [|data|ty data|fatal].
    + unfold step. simpl run_op. unfold dispatch. rewrite Hes, Hc, Hwire.
      unfold seq, set_readyState, upd. rewrite onopen_eq. simpl.
      apply (within_budget_mono w); simpl; try done.
      * apply in_range_alter, H.
      * by apply (can_retry_readyState _ _ _ _ _ es).
      * destruct H as (_ & _ & ?). lia.
    + unfold step. simpl run_op. unfold dispatch. rewrite Hes, Hc, Hwire.
      rewrite onmessage_eq. simpl.
      destruct (JSON_parse E data); [|done]. by apply (within_budget_frame w).
    + assert (Hcur : eventSource (this w) = Some id).
      { apply (Hwf id es Hes); [by unfold of_session; rewrite Hwire|].
        unfold live. by rewrite Hc. }
      assert (Hfirst : exists w1, session_handler E tok ty data w = Normal w1
                                  /\ within_budget w1).
      { unfold session_handler.
        destruct (String.eqb ty "message").
        { rewrite onmessage_eq. eexists. split; [done|].
          destruct (JSON_parse E data); [by apply (within_budget_frame w)|done]. }
        destruct (String.eqb ty "open").
        { rewrite onopen_eq. eexists. split; [done|].
          apply (within_budget_mono w); simpl; try done; [apply H|].
          destruct H as (_ & _ & ?). lia. }
        destruct (String.eqb ty "error"); [|by exists w].
        unfold onerror, seq, this_readyState, emits, upd. simpl.
        rewrite Hcur, Hes. simpl. rewrite notifyConnectionListeners_eq. simpl.
        rewrite Hcur, Hes. simpl. change 2 with CLOSED. rewrite Hc.
        eexists. split; [done|]. by apply (within_budget_frame w). }
      destruct Hfirst as (w1 & Hrun & H1).
      unfold step. simpl run_op. unfold dispatch. rewrite Hes, Hc, Hwire.
      unfold next_listener. rewrite Hrun.
      destruct (bool_decide (ty ∈ eventTypes es)); [|done].
      unfold named_listener, JSON_parse_then, skip.
      destruct (String.eqb ty "connected").
      { destruct (JSON_parse E data); [done|]. by apply (within_budget_frame w1). }
      destruct (String.eqb ty "heartbeat"); [done|].
      destruct (JSON_parse E data); [|by apply (within_budget_frame w1)].
      rewrite emit_eq. by apply (within_budget_frame w1).
    + by apply (error_within_budget id es tok).
  - assert (Hprobe : forall v X,
              this X = this w -> awaits X = awaits w ->
              retries (timers X) = retries (timers w) ->
              sources X = alter (with_readyState CLOSED) id
                            (alter (with_readyState v) id (sources w)) ->
              within_budget X).
    { intros v X Hth Haw Htm Hsrc. apply (within_budget_mono w X H).
      - rewrite Hth, Hsrc. apply in_range_alter, in_range_alter, H.
      - done.
      - by rewrite Haw.
      - rewrite Hth, Hsrc. etrans; [apply can_retry_close|].
        by apply (can_retry_readyState _ _ _ _ _ es).
      - rewrite Hth. destruct H as (_ & _ & ?). lia. }
    assert (Hsame : alter (with_readyState (readyState es)) id (sources w) = sources w).
    { apply list_eq. intros j. destruct (decide (id = j)) as [<-|Hne].
      - rewrite list_lookup_alter_eq, Hes. by destruct es.
      - by rewrite list_lookup_alter_ne. }
    destruct ev as [|data|ty data|fatal];
      unfold step; simpl run_op; unfold dispatch; rewrite Hes, Hc, Hwire; try done.
    + unfold seq, set_readyState, probe_onopen, clearTimeout, close, emits, resolve,
        seq, upd; simpl.
      apply (Hprobe OPEN); destruct (promises w !! p) as [[]|]; simpl;
        try done; apply retries_disarm.
    + unfold probe_handler.
      destruct (String.eqb ty "open"); [|destruct (String.eqb ty "error"); [|done]].
      all: unfold seq, set_readyState, probe_onopen, probe_onerror, clearTimeout, close,
             emits, resolve, seq, upd; simpl.
      all: apply (Hprobe (readyState es)); rewrite ?Hsame;
             destruct (promises w !! p) as [[]|]; simpl; try done; apply retries_disarm.
    + unfold seq, set_readyState, probe_onerror, clearTimeout, close, emits, resolve,
        seq, upd; simpl.
      apply (Hprobe (if fatal then CLOSED else CONNECTING));
        destruct (promises w !! p) as [[]|]; simpl; try done; apply retries_disarm.
Qed.

Lemma testConnection_within_budget tok w :
  within_budget w -> within_budget (step E (call_testConnection tok) w).
Proof.
  intros H. unfold step. simpl run_op.
  destruct (includes (API_BASE_URL E) "ngrok") eqn:Hng.
  - rewrite testConnection_tunnel by done. by apply (within_budget_frame w).
  - rewrite testConnection_direct by done. unfold probing.
    apply (within_budget_mono w); simpl; try done.
    + apply in_range_push, H.
    + rewrite retries_app. simpl. lia.
    + rewrite can_retry_push; [done|apply H].
    + destruct H as (_ & _ & ?). lia.
Qed.

(** The budget of one automatic retry is an invariant of the event loop. *)
Lemma step_one_retry o w : one_retry w -> one_retry (step E o w).
Proof.
  intros [Hwf H]. split; [by apply step_wf|].
  destruct o as [tok| |cb|ev cb|ev cb|cb|cb|tok|id ev|i|k r].
  - by apply connect_within_budget.
  - rewrite step_disconnect. by apply within_budget_released_disconnected.
  - by apply (within_budget_frame w).
  - unfold step. simpl run_op. rewrite on_eq. by apply (within_budget_frame w).
  - unfold step. simpl run_op.
    destruct (off_frame ev cb w) as [l [->| ->]]; by apply (within_budget_frame w).
  - by apply (within_budget_frame w).
  - unfold step. simpl run_op. rewrite offConnectionChange_eq.
    by apply (within_budget_frame w).
  - by apply testConnection_within_budget.
  - by apply dispatch_within_budget.
  - by apply fire_within_budget.
  - by apply settle_within_budget.
Qed.

Lemma initial_one_retry : one_retry initial.
Proof.
  split; [apply wf_initial|]. unfold within_budget, retry_budget; simpl.
  split; [done|]. split; [|done]. vm_compute. lia.
Qed.

Lemma run_one_retry ops w : one_retry w -> one_retry (run E ops w).
Proof.
  revert w. induction ops as [|o ops IH]; intros w H; simpl; [done|].
  apply IH. by apply step_one_retry.
Qed.

(** X15. Over its whole life a service object sets at most one retry
    timer. Whatever calls and browser events it goes through, the attempt
    counter is 0 or 1 and stays below [maxReconnectAttempts], which stays
    5, in every world reachable from a new service object. *)
Theorem at_most_one_automatic_retry ops :
  let w := run E ops initial in
  (retries (timers w) <= 1)%nat
  /\ 0 <= reconnectAttempts (this w) <= 1
  /\ maxReconnectAttempts (this w) = 5
  /\ (reconnectAttempts (this w) <? maxReconnectAttempts (this w)) = true.
Proof.
  intros w.
  destruct (run_one_retry ops initial initial_one_retry) as (_ & _ & Hb & Ha).
  fold w in Hb, Ha. unfold retry_budget in Hb.
  assert (Hmax : maxReconnectAttempts (this w) = 5) by apply run_keeps_max.
  split; [lia|]. split; [lia|]. split; [done|]. rewrite Hmax. apply Z.ltb_lt. lia.
Qed.

End OneRetry.

(** ** The URL in the log *)

Lemma append_cons c s t : String c s +:+ t = String c (s +:+ t).
Proof. reflexivity. Qed.

Lemma append_empty_l t : "" +:+ t = t.
Proof. reflexivity. Qed.

Lemma append_assoc s t u : (s +:+ t) +:+ u = s +:+ (t +:+ u).
Proof. induction s as [|c s IH]; [done|]. by rewrite !append_cons, IH. Qed.

Lemma append_empty_r s : s +:+ "" = s.
Proof. induction s as [|c s IH]; [done|]. by rewrite append_cons, IH. Qed.

Lemma includes_cons c s n :
  includes (String c s) n = String.prefix n (String c s) || includes s n.
Proof. reflexivity. Qed.

Lemma prefix_single_same c s : String.prefix (String c "") (String c s) = true.
Proof. simpl. destruct (ascii_dec c c); [by destruct s|done]. Qed.

(** [after_prefix] succeeds exactly where [String.prefix] holds *)
Lemma after_prefix_prefix p s : is_Some (after_prefix p s) <-> String.prefix p s = true.
Proof.
  revert s. induction p as [|a p IH]; intros s; destruct s as [|b s]; simpl.
  - split; [done|]. intros _. by eexists.
  - split; [done|]. intros _. by eexists.
  - split; [by intros [? ?]|done].
  - destruct (Ascii.eqb a b) eqn:Hab.
    + apply Ascii.eqb_eq in Hab as ->.
      destruct (ascii_dec b b); [apply IH|done].
    + apply Ascii.eqb_neq in Hab.
      destruct (ascii_dec a b); [done|]. split; [by intros [? ?]|done].
Qed.

(** a pattern without [/] cannot match across a [/] it has not reached *)
Lemma after_prefix_before_slash p q r :
  includes p "/" = false ->
  is_Some (after_prefix p (q +:+ String "/" r)) -> is_Some (after_prefix p q).
Proof.
  revert q. induction p as [|a p IH]; intros q Hp; simpl.
  - intros _. by eexists.
  - assert (Ha : a <> "/"%char /\ includes p "/" = false).
    { simpl in Hp. apply orb_false_iff in Hp as [Hp1 Hp2]. split; [|done].
      intros ->. simpl in Hp1. by destruct p. }
    destruct Ha as [Ha Hp'].
    destruct q as [|b q].
    + rewrite append_empty_l. simpl.
      destruct (Ascii.eqb a "/") eqn:Hab; [by apply Ascii.eqb_eq in Hab|].
      by intros [? ?].
    + rewrite append_cons. simpl. destruct (Ascii.eqb a b); [by apply IH|done].
Qed.

Lemma mask_token_unmatched c s :
  after_prefix "token=" (String c s) = None ->
  mask_token (String c s) = String c (mask_token s).
Proof. intros H. cbn [mask_token]. by rewrite H. Qed.

(** the scan of [replace] walks past a prefix that holds no [token=] *)
Lemma mask_token_skip p r :
  includes p "token=" = false ->
  mask_token (p +:+ String "/" r) = p +:+ mask_token (String "/" r).
Proof.
  induction p as [|c p IH]; intros Hp; [done|].
  simpl in Hp. apply orb_false_iff in Hp as [Hpre Hp].
  rewrite !append_cons, mask_token_unmatched, IH; [done|done|].
  destruct (after_prefix "token=" (String c (p +:+ String "/" r))) eqn:Hm; [|done].
  exfalso.
  assert (Hq : is_Some (after_prefix "token=" (String c p))).
  { apply (after_prefix_before_slash "token=" (String c p) r); [by vm_compute|].
    rewrite append_cons. by eexists. }
  apply after_prefix_prefix in Hq. simpl in Hq. simpl in Hpre. congruence.
Qed.

(** and past one that holds no [t] at all *)
Lemma mask_token_skip_no_t q s :
  includes q "t" = false -> mask_token (q +:+ s) = q +:+ mask_token s.
Proof.
  induction q as [|c q IH]; intros Hq; [done|].
  rewrite includes_cons in Hq. apply orb_false_iff in Hq as [Hc Hq].
  rewrite !append_cons, mask_token_unmatched, IH; [done|done|].
  cbn [after_prefix]. destruct (Ascii.eqb "t" c) eqn:Ht; [|done].
  apply Ascii.eqb_eq in Ht as <-. by rewrite prefix_single_same in Hc.
Qed.

Lemma drop_value_app s t : includes s "&" = false -> drop_value (s +:+ t) = drop_value t.
Proof.
  induction s as [|c s IH]; intros Hs; [done|].
  simpl in Hs. apply orb_false_iff in Hs as [Hc Hs].
  rewrite append_cons. simpl.
  destruct (Ascii.eqb c "&") eqn:Hamp.
  - apply Ascii.eqb_eq in Hamp as ->. simpl in Hc. by destruct s.
  - by apply IH.
Qed.

Lemma starts_value_app s t :
  s <> "" -> includes s "&" = false -> starts_value (s +:+ t) = true.
Proof.
  destruct s as [|c s]; [done|]. intros _ Hs. simpl in Hs.
  apply orb_false_iff in Hs as [Hc _]. rewrite append_cons. simpl.
  destruct (Ascii.eqb c "&") eqn:Hamp; [|done].
  apply Ascii.eqb_eq in Hamp as ->. simpl in Hc. by destruct s.
Qed.

Section Log.
Context (E : Env).

(** the masked form of a stream URL whose value is [enc] and whose flags
    are [flag], empty or starting with [&] *)
Lemma mask_token_stream p enc flag :
  includes p "token=" = false ->
  enc <> "" -> includes enc "&" = false ->
  flag = "" \/ (exists f, flag = String "&" f) ->
  mask_token (p +:+ "/api/sse-simple/?token=" +:+ enc +:+ flag)
  = p +:+ "/api/sse-simple/?token=***" +:+ flag.
Proof.
  intros Hp Hne Hamp Hflag.
  change ("/api/sse-simple/?token=" +:+ enc +:+ flag)
    with (String "/" ("api/sse-simple/?" +:+ "token=" +:+ enc +:+ flag)).
  rewrite mask_token_skip by done. f_equal.
  change (String "/" ("api/sse-simple/?" +:+ "token=" +:+ enc +:+ flag))
    with ("/api/sse-simple/?" +:+ "token=" +:+ enc +:+ flag).
  rewrite mask_token_skip_no_t by by vm_compute.
  change ("/api/sse-simple/?token=***" +:+ flag)
    with ("/api/sse-simple/?" +:+ "token=***" +:+ flag).
  f_equal.
  change ("token=" +:+ enc +:+ flag)
    with (String "t" (String "o" (String "k" (String "e" (String "n"
            (String "=" (enc +:+ flag))))))).
  cbn [mask_token after_prefix Ascii.eqb Bool.eqb].
  rewrite starts_value_app, drop_value_app by done. f_equal.
  destruct Hflag as [->|[f ->]]; reflexivity.
Qed.

(** X16. The URL [connect] logs never shows the token. When the base URL
    holds no [token=] of its own and the encoded token is non-empty and
    free of [&], as [encodeURIComponent] makes it, the logged URL is the
    stream URL with the whole token value replaced by three stars, the
    tunnel flag being kept. *)
Theorem connect_log_hides_the_token tok w :
  truthy tok = true ->
  includes (API_BASE_URL E) "token=" = false ->
  encodeURIComponent E (ToString tok) <> "" ->
  includes (encodeURIComponent E (ToString tok)) "&" = false ->
  let masked := API_BASE_URL E +:+ "/api/sse-simple/?token=***"
                +:+ (if includes (API_BASE_URL E) "ngrok"
                     then "&ngrok-skip-browser-warning=true" else "") in
  mask_token (stream_url E tok) = masked
  /\ trace (step E (call_connect tok) w)
     = trace (released w)
       ++ [console_log ["SSE: Connecting to:"; masked];
           new_EventSource (length (sources w)) (stream_url E tok)].
Proof.
  intros Htok Hbase Hne Hamp masked.
  assert (Hmask : mask_token (stream_url E tok) = masked).
  { unfold stream_url, masked.
    destruct (includes (API_BASE_URL E) "ngrok").
    - rewrite !append_assoc.
      apply (mask_token_stream _ _ "&ngrok-skip-browser-warning=true"); try done.
      right. by eexists.
    - rewrite <- (append_empty_r (encodeURIComponent E _)).
      apply (mask_token_stream _ _ ""); try done. by left. }
  split; [exact Hmask|].
  rewrite step_connect, Htok, trace_opened, Hmask.
  by rewrite length_sources_released.
Qed.

End Log.

Lemma connect_log_hides_the_token_witness :
  truthy (Str "s3cret") = true
  /\ includes (API_BASE_URL tunnel_env) "token=" = false
  /\ mask_token (stream_url tunnel_env (Str "s3cret"))
     = "https://abc123.ngrok.io/api/sse-simple/?token=***&ngrok-skip-browser-warning=true".
Proof.
  split; [reflexivity|]. split; [by vm_compute|].
  destruct (connect_log_hides_the_token tunnel_env (Str "s3cret") initial
              eq_refl) as [Hmask _]; [by vm_compute|discriminate|by vm_compute|].
  rewrite Hmask. by vm_compute.
Defined.

(** ** Instances of the conditional statements *)

Lemma off_unregistered_is_noop_witness :
  (3%nat ∉ registered "notification" initial)
  /\ off "notification" 3%nat initial = Normal initial.
Proof.
  assert (Hn : 3%nat ∉ registered "notification" initial) by apply not_elem_of_nil.
  split; [exact Hn|].
  apply (off_unregistered_is_noop direct_env "notification" 3%nat initial Hn).
Defined.

Lemma on_off_round_trip_witness :
  let w := step direct_env (call_on "notification" 5%nat) initial in
  (3%nat ∉ registered "notification" w)
  /\ registered "notification"
       (step direct_env (call_off "notification" 3%nat)
          (step direct_env (call_on "notification" 3%nat) w))
     = [5%nat].
Proof.
  intros w.
  assert (Hn : 3%nat ∉ registered "notification" w).
  { assert (Hreg : registered "notification" w = [5%nat]) by (by vm_compute).
    rewrite Hreg. apply not_elem_of_cons. split; [discriminate|apply not_elem_of_nil]. }
  split; [exact Hn|].
  destruct (on_off_round_trip direct_env "notification" 3%nat w Hn) as (Hregs & _).
  rewrite Hregs. by vm_compute.
Defined.

Lemma status_along_a_connection_witness :
  truthy (Str "t") = true
  /\ getConnectionStatus
       (step direct_env (transport 0%nat ev_open)
          (step direct_env (call_connect (Str "t")) initial))
     = (true, 0, true, Some OPEN,
        Some "https://api.example.org/api/sse-simple/?token=t").
Proof.
  split; [reflexivity|].
  destruct (status_along_a_connection direct_env (Str "t") initial eq_refl)
    as (_ & Hopen & _).
  simpl in Hopen. rewrite Hopen. by vm_compute.
Defined.

Lemma transient_error_is_only_reported_witness :
  let w := step direct_env (call_connect (Str "t")) initial in
  eventSource (this w) = Some 0%nat
  /\ timers (step direct_env (transport 0%nat (ev_error false)) w) = []
  /\ (readyState <$> sources (step direct_env (transport 0%nat (ev_error false)) w) !! 0%nat)
     = Some CONNECTING.
Proof.
  intros w.
  assert (Hes : sources w !! 0%nat
                = Some {| url := stream_url direct_env (Str "t");
                          withCredentials := true; readyState := CONNECTING;
                          wiring := SessionHandlers (Str "t");
                          eventTypes := named_events |})
    by (by vm_compute).
  assert (Hcur : eventSource (this w) = Some 0%nat) by (by vm_compute).
  destruct (transient_error_is_only_reported direct_env 0%nat _ (Str "t") w Hes)
    as (_ & Hsrc & Htm & _); [by vm_compute|reflexivity|exact Hcur|].
  split; [exact Hcur|]. rewrite Htm, Hsrc. split; by vm_compute.
Defined.

Lemma inert_named_events_witness :
  let w1 := step direct_env (call_connect (Str "t")) initial in
  truthy (Str "t") = true
  /\ ("ping" ∉ named_events)
  /\ step direct_env (transport 0%nat (ev_named "heartbeat" "{oops")) w1 = w1
  /\ step direct_env (transport 0%nat (ev_named "ping" "{oops")) w1 = w1.
Proof.
  intros w1.
  assert (Hping : "ping" ∉ named_events)
    by (apply (bool_decide_eq_false_1 _); by vm_compute).
  destruct (inert_named_events direct_env (Str "t") "{oops" "ping" initial eq_refl)
    as (Hhb & _ & Hdrop).
  split; [reflexivity|]. split; [exact Hping|]. split; [exact Hhb|].
  by apply Hdrop.
Defined.

Lemma named_event_is_forwarded_under_its_name_witness :
  let w := step direct_env (call_on "vote_update" 3%nat) initial in
  truthy (Str "t") = true
  /\ "vote_update" ∈ named_events
  /\ JSON_parse direct_env "true" = Some (JBool true)
  /\ trace (step direct_env (transport 0%nat (ev_named "vote_update" "true"))
              (step direct_env (call_connect (Str "t")) w))
     = trace (step direct_env (call_connect (Str "t")) w) ++ [invoke 3%nat (JBool true)].
Proof.
  intros w.
  assert (Hin : "vote_update" ∈ named_events)
    by (apply list_elem_of_In; vm_compute; tauto).
  split; [reflexivity|]. split; [exact Hin|]. split; [reflexivity|].
  pose proof (named_event_is_forwarded_under_its_name direct_env (Str "t")
                "vote_update" "true" (JBool true) w eq_refl Hin) as Hfw.
  assert (Hlen : length (sources w) = 0%nat) by (by vm_compute).
  rewrite Hlen in Hfw. rewrite Hfw; [|discriminate|discriminate|reflexivity].
  by vm_compute.
Defined.

Lemma generic_message_is_forwarded_or_dropped_witness :
  truthy (Str "t") = true
  /\ step direct_env (transport 0%nat (ev_message "{oops"))
       (step direct_env (call_connect (Str "t")) initial)
     = step direct_env (call_connect (Str "t")) initial.
Proof.
  split; [reflexivity|].
  pose proof (generic_message_is_forwarded_or_dropped direct_env (Str "t") "{oops"
                initial eq_refl) as Hm.
  assert (Hp : JSON_parse direct_env "{oops" = None) by reflexivity.
  cbv zeta in Hm. rewrite Hp in Hm.
  change (length (sources initial)) with 0%nat in Hm. exact Hm.
Defined.

Lemma probe_settles_once_witness :
  includes (API_BASE_URL direct_env) "ngrok" = false
  /\ let w1 := step direct_env (call_testConnection (Str "t")) initial in
     let w2 := step direct_env (transport 0%nat ev_open) w1 in
     (delay <$> timers w1) = [10000]
     /\ (exists v, promises w2 !! 0%nat = Some (Resolved v) /\ success v = true)
     /\ step direct_env (timer_fires 0%nat) w2 = w2
     /\ step direct_env (transport 0%nat (ev_named "open" "1")) w2 = w2.
Proof.
  assert (Hd : includes (API_BASE_URL direct_env) "ngrok" = false) by (by vm_compute).
  split; [exact Hd|].
  destruct (probe_settles_once direct_env (Str "t") initial
              (transport 0%nat ev_open) (timer_fires 0%nat) Hd)
    as (Htm & Hv & _ & _ & Hfinal); [by left|by right|].
  destruct (probe_settles_once direct_env (Str "t") initial
              (transport 0%nat ev_open) (transport 0%nat (ev_named "open" "1")) Hd)
    as (_ & _ & _ & _ & Hnamed); [by left|left; by eexists|].
  cbv zeta. split; [by rewrite Htm|]. split; [exact Hv|]. split; [exact Hfinal|exact Hnamed].
Defined.

Lemma refresh_in_flight_survives_disconnect_witness :
  let w := run direct_env [call_setTokenRefreshCallback (Some 9%nat);
                           call_connect (Str "old")] initial in
  let w3 := run direct_env [transport 0%nat (ev_error true); call_disconnect;
                            hook_settles 0%nat (hook_returns (Str "new"))] w in
  tokenRefreshCallback (this w) = Some 9%nat
  /\ eventSource (this w3) = Some 1%nat
  /\ lastToken (this w3) = Str "new"
  /\ shouldReconnect (this w3) = false.
Proof.
  intros w w3.
  assert (Hes : sources w !! 0%nat
                = Some {| url := stream_url direct_env (Str "old");
                          withCredentials := true; readyState := CONNECTING;
                          wiring := SessionHandlers (Str "old");
                          eventTypes := named_events |})
    by (by vm_compute).
  assert (Hhook : tokenRefreshCallback (this w) = Some 9%nat) by (by vm_compute).
  destruct (refresh_in_flight_survives_disconnect direct_env 0%nat _ (Str "old")
              9%nat (Str "new") w Hes)
    as (_ & _ & Hcur & _ & Hlast & Hflag);
    [by vm_compute|reflexivity|by vm_compute|by vm_compute|by vm_compute|exact Hhook
    |reflexivity|by vm_compute|].
  split; [exact Hhook|]. split; [exact Hcur|]. split; [exact Hlast|exact Hflag].
Defined.

(** ** Worked examples *)

(** Listener 7 throws on every call; its neighbours are still called, in
    registration order, and a doubled registration fires twice until one
    [off] removes the older copy. *)
Example fan_out_survives_a_throwing_listener :
  trace (run direct_env
           [call_on "notification" 3%nat; call_on "notification" 7%nat;
            call_on "notification" 3%nat; call_connect (Str "t");
            transport 0%nat (ev_named "notification" "true");
            call_off "notification" 3%nat;
            transport 0%nat (ev_named "notification" "null")] initial)
  = [console_log ["SSE: Connecting to:";
                  "https://api.example.org/api/sse-simple/?token=***"];
     new_EventSource 0 "https://api.example.org/api/sse-simple/?token=t";
     invoke 3%nat (JBool true); invoke 7%nat (JBool true); invoke 3%nat (JBool true);
     invoke 7%nat JNull; invoke 3%nat JNull].
Proof. vm_compute. reflexivity. Qed.

(** The retry of the first timer replaces the failed handle through
    [disconnect], so the second failure schedules nothing: one timer in
    all, and auto-reconnect is off. *)
Example second_failure_is_not_retried :
  let w := run direct_env
             [call_connect (Str "t"); transport 0%nat (ev_error true);
              timer_fires 0%nat; transport 1%nat (ev_error true)] initial in
  (delay <$> timers w) = [1000]
  /\ shouldReconnect (this w) = false
  /\ reconnectAttempts (this w) = 1
  /\ live_session_handles w = [].
Proof. vm_compute. repeat split. Qed.

(** Behind the tunnel the stream URL carries the bypass flag. *)
Example tunnel_stream_url :
  stream_url tunnel_env (Str "abc")
  = "https://abc123.ngrok.io/api/sse-simple/?token=abc&ngrok-skip-browser-warning=true".
Proof. vm_compute. reflexivity. Qed.

